(** * aiogram_forms.base: declarative chat forms over a dispatcher FSM

    A shallow embedding of [src/aiogram_forms/base.py].  A form is a class
    built by the metaclass [FormMeta] out of the [BaseField] instances found in
    its body.  The class methods of [BaseForm] drive one conversation through
    the fields: they read and write the conversation's FSM context, send
    messages through the bot and finally call the completion callback.

    Python objects are modelled as records, class attributes that are mutated
    at run time ([_state], [_registered], [_callback], ...) live in the state
    that the methods thread, exceptions are a result type, and every call that
    leaves the module (validators, FSM context, bot, dispatcher, callback) is
    recorded in a log of events in the order in which it happens.  The
    coroutines are awaited one after the other; the model follows one form
    class and the conversation of the current chat.

    A field object has an identity ([oid]): the class body and [_fields]
    hold references, and an assignment to an attribute of a field shows in
    every entry that is this object.  The class keeps the names that its
    body binds ([body]); [cls.finish()] is looked up through them, a name
    bound by the body hiding the method.  The other methods that
    [BaseForm] calls on the class are taken to be its own. *)

From Stdlib Require Import ZArith Ascii.
From stdpp Require Import gmap strings list fin_maps.

Open Scope string_scope.

(** ** Python values, truthiness, exceptions *)

(** Values of type [Any] that reach the module ([callback_args]). *)
#[local] Unset Elimination Schemes.
Inductive pyval :=
| PyNone
| PyBool (b : bool)
| PyInt (z : Z)
| PyStr (s : string)
| PyList (l : list pyval)
| PyDict (d : list (string * pyval)).
#[local] Set Elimination Schemes.

(** [bool(v)], as used by [if v:]. *)
Definition truthy (v : pyval) : bool :=
  match v with
  | PyNone => false
  | PyBool b => b
  | PyInt z => negb (z =? 0)%Z
  | PyStr s => negb (bool_decide (s = ""))
  | PyList l => match l with [] => false | _ :: _ => true end
  | PyDict d => match d with [] => false | _ :: _ => true end
  end.

(** The exceptions the module can raise. *)
Inductive exn := AttributeError | IndexError | TypeError | ValueError.

Inductive result (A : Type) :=
| Ok (a : A)
| Raise (e : exn).
Arguments Ok {A} a.
Arguments Raise {A} e.

(** A [str] is held as its UTF-8 bytes.  A byte [10xxxxxx] continues the
    code point that the bytes before it began. *)
Definition is_continuation (a : ascii) : bool :=
  match a with
  | Ascii _ _ _ _ _ _ b6 b7 => b7 && negb b6
  end.

(** The code points of a string, each with all of its bytes. *)
Fixpoint code_points (s : string) : list string :=
  match s with
  | EmptyString => []
  | String a r =>
      let rest := code_points r in
      match r, rest with
      | String b _, p :: ps =>
          if is_continuation b then String a p :: ps
          else String a EmptyString :: rest
      | _, _ => String a EmptyString :: rest
      end
  end.

(** Iterating over a [str] yields its characters, one code point each. *)
Definition chars (s : string) : list pyval := PyStr <$> code_points s.

(** Star-unpacking of [v] in a call: the elements of an iterable,
    [TypeError] otherwise. *)
Definition unpack (v : pyval) : result (list pyval) :=
  match v with
  | PyList l => Ok l
  | PyStr s => Ok (chars s)
  | PyDict d => Ok (PyStr <$> d.*1)
  | PyNone | PyBool _ | PyInt _ => Raise TypeError
  end.

(** [sub in s] on strings. *)
Definition str_in (sub s : string) : bool :=
  match String.index 0 sub s with
  | Some _ => true
  | None => false
  end.

(** ** Constants of [aiogram_forms.const]

    [aiogram_forms/const.py] is not among the sources; its two constants are
    parameters of the definitions that read them. *)
Module const.
Record t := {
  STATES_GROUP_SUFFIX : string;
  DEFAULT_VALIDATION_ERROR_MESSAGE : string }.
End const.

(** ** The world outside the module *)

(** [ReplyKeyboardRemove() | ReplyKeyboardMarkup(...)], opaque payloads
    handed to the bot. *)
Inductive Keyboard :=
| ReplyKeyboardRemove
| ReplyKeyboardMarkup (rows : list (list string)).

(** A completion callback is an opaque callable, known by its identity. *)
Definition Callback := nat.

(** Calls that leave the module, in program order. *)
Inductive event :=
| EvValidate (vid : nat) (value : string)
    (* await validator.validate(value) *)
| EvGetState
    (* await state.get_state() *)
| EvSetState (s : string)
    (* await state.set_state(s) *)
| EvResetState (with_data : bool)
    (* await state.reset_state(with_data=...) *)
| EvUpdateData (k v : string)
    (* await state.update_data with the one keyword k = v *)
| EvProxy
    (* async with state.proxy() as data *)
| EvSendMessage (chat : Z) (text : string) (reply_markup : option Keyboard)
    (* await dispatcher.bot.send_message(chat, text=..., reply_markup=...) *)
| EvRegister (states : list string)
    (* dispatcher.register_message_handler(cls._handle_input, state=states) *)
| EvCallback (cb : Callback) (args : list pyval).
    (* await cls._callback, called with the positional arguments args *)

(** A validator object: its identity and what its [validate] coroutine
    answers ([BaseValidator.validate] is abstract; by its contract it returns
    a bool).  Each call is logged by [BaseField.validate]. *)
Module BaseValidator.
Record t := {
  vid : nat;
  validate : string -> bool }.
End BaseValidator.

(** A dispatcher middleware: [str(middleware)] and what calling it does to a
    text (only the i18n middleware is ever called). *)
Module Middleware.
Record t := {
  str : string;
  call : string -> string }.
End Middleware.

(** The storage slot of the current chat, as [FSMContext] presents it:
    a state name or none, and the data dictionary. *)
Module FSMContext.
Record t := {
  state : option string;
  data : gmap string string }.
End FSMContext.

(** [aiogram.dispatcher.filters.state.StatesGroup] subclasses created by
    [type(name, (StatesGroup,), namespace)]: the group name and the full
    names [group:state] of its [State] members in namespace order. *)
Module StatesGroup.
Record t := {
  group_name : string;
  states_names : list string }.

(** The keys of a dict built by inserting [ks] in order: a repeated key
    keeps the position of its first insertion. *)
Fixpoint dict_keys (seen ks : list string) : list string :=
  match ks with
  | [] => []
  | k :: rest =>
      if bool_decide (k ∈ seen) then dict_keys seen rest
      else k :: dict_keys (k :: seen) rest
  end.

(** [type(name, (StatesGroup,), {label: State() for label in labels})].
    Each [State()] gets its attribute name through [__set_name__] and its
    full name is [group:name]. *)
Definition create (name : string) (labels : list string) : t :=
  {| group_name := name;
     states_names := (fun l => name ++ ":" ++ l) <$> dict_keys [] labels |}.
End StatesGroup.

(** ** class BaseField *)
Module BaseField.
(** [_key] is [None] until [__set_name__]; [_form] and [_state] are only
    annotated in the class body, so reading them before they are assigned
    raises [AttributeError] ([None] below).  [_form] is the owning form
    class, kept by the one attribute read through it, its [name].
    [oid] is the identity of the object: entries of a class body or of
    [_fields] with the same [oid] are one and the same field, and an
    assignment to an attribute of the object shows in all of them. *)
Record t := {
  oid : nat;
  _key : option string;
  _form : option string;
  _state : option string;
  _label : string;
  _validation_error_message : string;
  _validators : list BaseValidator.t;
  _reply_keyboard : Keyboard }.

Definition __init__ (c : const.t) (self : nat) (label : string)
    (validators : option (list BaseValidator.t))
    (reply_keyboard : option Keyboard)
    (validation_error_message : option string) : t :=
  {| oid := self;
     _key := None;
     _form := None;
     _state := None;
     _label := label;
     _validation_error_message :=
       match validation_error_message with
       | Some m =>
           if bool_decide (m = "")
           then const.DEFAULT_VALIDATION_ERROR_MESSAGE c else m
       | None => const.DEFAULT_VALIDATION_ERROR_MESSAGE c
       end;
     _validators :=
       match validators with
       | Some vs => vs
       | None => []
       end;
     _reply_keyboard :=
       match reply_keyboard with
       | Some k => k
       | None => ReplyKeyboardRemove
       end |}.

Definition __set_name__ (self : t) (owner name : string) : t :=
  {| oid := oid self;
     _key := match _key self with
             | None => Some name
             | Some k => Some k
             end;
     _form := Some owner;
     _state := _state self;
     _label := _label self;
     _validation_error_message := _validation_error_message self;
     _validators := _validators self;
     _reply_keyboard := _reply_keyboard self |}.

Definition set_form (self : t) (owner : string) : t :=
  {| oid := oid self;
     _key := _key self;
     _form := Some owner;
     _state := _state self;
     _label := _label self;
     _validation_error_message := _validation_error_message self;
     _validators := _validators self;
     _reply_keyboard := _reply_keyboard self |}.

Definition set_state (self : t) (state_name : string) : t :=
  {| oid := oid self;
     _key := _key self;
     _form := _form self;
     _state := Some state_name;
     _label := _label self;
     _validation_error_message := _validation_error_message self;
     _validators := _validators self;
     _reply_keyboard := _reply_keyboard self |}.

(** [a is b] *)
Definition same_object (a b : t) : bool := bool_decide (oid a = oid b).

(** An assignment to an attribute of the object [o], seen through a list
    of references to fields: every entry that is [o] changes. *)
Definition assign (o : t) (h : t -> t) (refs : list t) : list t :=
  (fun f => if same_object f o then h f else f) <$> refs.

(** [f'{self._key}']: [None] is formatted as the text [None]. *)
Definition key_str (self : t) : string :=
  match _key self with
  | Some k => k
  | None => "None"
  end.

Definition state (self : t) : result string :=
  match _state self with
  | Some s => Ok s
  | None => Raise AttributeError
  end.

Definition label (self : t) : string := _label self.

Definition state_label (self : t) : string := "waiting_" ++ key_str self.

Definition data_key (self : t) : result string :=
  match _form self with
  | Some form_name => Ok (form_name ++ ":" ++ key_str self)
  | None => Raise AttributeError
  end.

Definition validation_error (self : t) : string :=
  _validation_error_message self.
End BaseField.

(** ** The form class object *)
Module Form.
(** The class attributes of a form class ([BaseForm] declares their
    defaults, [FormMeta.__new__] sets [_state], [name] and [_fields]).
    [body] lists the names that the class body binds: such a name hides
    what [BaseForm] defines under it. *)
Record t := {
  body : list string;
  name : string;
  _fields : list BaseField.t;
  _state : option StatesGroup.t;
  _i18n : option Middleware.t;
  _registered : bool;
  _callback : option Callback;
  _callback_args : pyval }.

Definition set_fields (cls : t) (fs : list BaseField.t) : t :=
  {| body := body cls; name := name cls; _fields := fs; _state := _state cls;
     _i18n := _i18n cls; _registered := _registered cls;
     _callback := _callback cls; _callback_args := _callback_args cls |}.

Definition set_state (cls : t) (g : StatesGroup.t) : t :=
  {| body := body cls; name := name cls; _fields := _fields cls; _state := Some g;
     _i18n := _i18n cls; _registered := _registered cls;
     _callback := _callback cls; _callback_args := _callback_args cls |}.

Definition set_i18n (cls : t) (m : Middleware.t) : t :=
  {| body := body cls; name := name cls; _fields := _fields cls; _state := _state cls;
     _i18n := Some m; _registered := _registered cls;
     _callback := _callback cls; _callback_args := _callback_args cls |}.

Definition set_registered (cls : t) (b : bool) : t :=
  {| body := body cls; name := name cls; _fields := _fields cls; _state := _state cls;
     _i18n := _i18n cls; _registered := b;
     _callback := _callback cls; _callback_args := _callback_args cls |}.

Definition set_callback (cls : t) (cb : Callback) (args : pyval) : t :=
  {| body := body cls; name := name cls; _fields := _fields cls; _state := _state cls;
     _i18n := _i18n cls; _registered := _registered cls;
     _callback := Some cb; _callback_args := args |}.
End Form.

(** ** State threaded by the methods *)

(** What [Dispatcher.get_current()] and [types.Chat.get_current()] give:
    the id of the current chat and the middlewares installed on the
    dispatcher.  The methods never change it. *)
Module Dispatcher.
Record t := {
  chat_id : Z;
  applications : list Middleware.t }.
End Dispatcher.

Record St := {
  cls : Form.t;
  fsm : FSMContext.t;
  dispatcher : Dispatcher.t;
  log : list event }.

(** A method: it may raise, and what it did before raising stays done. *)
Definition M (A : Type) : Type := St -> result A * St.

#[export] Instance M_ret : MRet M := fun A a st => (Ok a, st).

#[export] Instance M_bind : MBind M := fun A B k m st =>
  match m st with
  | (Ok a, st') => k a st'
  | (Raise e, st') => (Raise e, st')
  end.

Definition raise {A : Type} (e : exn) : M A := fun st => (Raise e, st).

Definition lift {A : Type} (r : result A) : M A := fun st => (r, st).

Definition get_cls : M Form.t := fun st => (Ok (cls st), st).

Definition put_cls (c : Form.t) : M unit := fun st =>
  (Ok tt, {| cls := c; fsm := fsm st; dispatcher := dispatcher st;
             log := log st |}).

Definition get_dispatcher : M Dispatcher.t := fun st =>
  (Ok (dispatcher st), st).

Definition emit (e : event) : M unit := fun st =>
  (Ok tt, {| cls := cls st; fsm := fsm st; dispatcher := dispatcher st;
             log := log st ++ [e] |}).

Definition put_fsm (x : FSMContext.t) : M unit := fun st =>
  (Ok tt, {| cls := cls st; fsm := x; dispatcher := dispatcher st;
             log := log st |}).

Definition get_fsm : M FSMContext.t := fun st => (Ok (fsm st), st).

(** ** Calls into aiogram *)

(** [Dispatcher.get_current().current_state()]: the operations of the
    conversation state store on the slot of the current chat.
    [reset_state(with_data=False)] clears the state name and keeps the
    data; [update_data] merges its keyword into the data. *)
Module CurrentState.
Definition get_state : M (option string) :=
  emit EvGetState ;;
  x ← get_fsm;
  mret (FSMContext.state x).

Definition set_state (s : string) : M unit :=
  emit (EvSetState s) ;;
  x ← get_fsm;
  put_fsm {| FSMContext.state := Some s;
             FSMContext.data := FSMContext.data x |}.

Definition reset_state (with_data : bool) : M unit :=
  emit (EvResetState with_data) ;;
  x ← get_fsm;
  put_fsm {| FSMContext.state := None;
             FSMContext.data :=
               if with_data then ∅ else FSMContext.data x |}.

Definition update_data (k v : string) : M unit :=
  emit (EvUpdateData k v) ;;
  x ← get_fsm;
  put_fsm {| FSMContext.state := FSMContext.state x;
             FSMContext.data := <[k := v]> (FSMContext.data x) |}.

Definition proxy : M (gmap string string) :=
  emit EvProxy ;;
  x ← get_fsm;
  mret (FSMContext.data x).
End CurrentState.

(** [dispatcher.bot.send_message(types.Chat.get_current().id, ...)]. *)
Definition send_message (text : string) (reply_markup : option Keyboard)
    : M unit :=
  d ← get_dispatcher;
  emit (EvSendMessage (Dispatcher.chat_id d) text reply_markup).

(** ** BaseField.validate *)

Definition call_validator (v : BaseValidator.t) (value : string) : M bool :=
  emit (EvValidate (BaseValidator.vid v) value) ;;
  mret (BaseValidator.validate v value).

Fixpoint validate_loop (validators : list BaseValidator.t) (value : string)
    : M bool :=
  match validators with
  | [] => mret true
  | validator :: rest =>
      ok ← call_validator validator value;
      if negb ok then mret false else validate_loop rest value
  end.

(** [BaseField.validate]: the loop over [self._validators]. *)
Definition BaseField_validate (self : BaseField.t) (value : string) : M bool :=
  validate_loop (BaseField._validators self) value.

(** The validators that a run over [validators] calls: all of them up to
    and including the first one that answers false. *)
Fixpoint invoked (validators : list BaseValidator.t) (value : string)
    : list BaseValidator.t :=
  match validators with
  | [] => []
  | v :: rest =>
      if BaseValidator.validate v value then v :: invoked rest value
      else [v]
  end.

(** ** class FormMeta *)
Module FormMeta.
(** What a class body binds a name to: a field instance or anything
    else. *)
Inductive attr :=
| Field (f : BaseField.t)
| Other (v : pyval).

(** An assignment to an attribute of the field object [o], seen through
    the class body: every name bound to [o] shows it. *)
Definition assign_ns (o : BaseField.t) (h : BaseField.t -> BaseField.t)
    (namespace : list (string * attr)) : list (string * attr) :=
  (fun '(name, prop) =>
     match prop with
     | Field f =>
         (name, Field (if BaseField.same_object f o then h f else f))
     | Other v => (name, Other v)
     end) <$> namespace.

(** The calls of [__set_name__] for the bindings [todo], in order, on the
    objects of [namespace]. *)
Fixpoint set_names (owner : string) (todo namespace : list (string * attr))
    : list (string * attr) :=
  match todo with
  | [] => namespace
  | (name, Field f) :: rest =>
      set_names owner rest
        (assign_ns f (fun g => BaseField.__set_name__ g owner name) namespace)
  | (_, Other _) :: rest => set_names owner rest namespace
  end.

(** [type.__new__] calls [__set_name__(cls, name)] on every attribute of
    the namespace that defines it, in namespace order. *)
Definition type_new (owner : string) (namespace : list (string * attr))
    : list (string * attr) :=
  set_names owner namespace namespace.

Fixpoint _get_form_fields (form_class : string)
    (namespace : list (string * attr)) : list BaseField.t :=
  match namespace with
  | [] => []
  | (_, Field prop) :: rest =>
      BaseField.set_form prop form_class :: _get_form_fields form_class rest
  | (_, Other _) :: rest => _get_form_fields form_class rest
  end.

(** The class statement of a direct subclass of [BaseForm]: the other
    class attributes start from the defaults declared in [BaseForm]. *)
Definition __new__ (name : string) (namespace : list (string * attr))
    : result Form.t :=
  let body := namespace.*1 in
  let namespace := type_new name namespace in
  Ok {| Form.body := body;
        Form.name := name;
        Form._fields := _get_form_fields name namespace;
        Form._state := None;
        Form._i18n := None;
        Form._registered := false;
        Form._callback := None;
        Form._callback_args := PyNone |}.

(** [for field, state_name in zip(todo, names): field._state = state_name],
    on the objects of [fields]. *)
Fixpoint assign_loop (todo : list BaseField.t) (names : list string)
    (fields : list BaseField.t) : list BaseField.t :=
  match todo, names with
  | field :: todo', state_name :: names' =>
      assign_loop todo' names'
        (BaseField.assign field
           (fun g => BaseField.set_state g state_name) fields)
  | _, _ => fields
  end.

Definition assign_states (fields : list BaseField.t) (names : list string)
    : list BaseField.t :=
  assign_loop fields names fields.

(** The [state] property.  A [StatesGroup] class is truthy, so
    [not cls._state] holds exactly while [_state] is [None]. *)
Definition state (c : const.t) : M StatesGroup.t :=
  cls ← get_cls;
  match Form._state cls with
  | Some g => mret g
  | None =>
      let g :=
        StatesGroup.create
          (Form.name cls ++ const.STATES_GROUP_SUFFIX c)
          (BaseField.state_label <$> Form._fields cls) in
      put_cls (Form.set_state cls g) ;;
      cls ← get_cls;
      put_cls
        (Form.set_fields cls
           (assign_states (Form._fields cls) (StatesGroup.states_names g))) ;;
      mret g
  end.
End FormMeta.

(** ** class BaseForm *)
Module BaseForm.
(** A field object of the form is referred to by its position in
    [_fields]: every entry of the tuple is an object of its own. *)
Abbreviation FieldRef := nat (only parsing).

(** [cls._i18n(text) if cls._i18n else text] *)
Definition translate (cls : Form.t) (text : string) : string :=
  match Form._i18n cls with
  | Some m => Middleware.call m text
  | None => text
  end.

Fixpoint install_i18n (applications : list Middleware.t) (cls : Form.t)
    : Form.t :=
  match applications with
  | [] => cls
  | middleware :: rest =>
      if str_in "i18n" (Middleware.str middleware)
      then install_i18n rest (Form.set_i18n cls middleware)
      else install_i18n rest cls
  end.

Definition _register_handler (c : const.t) : M unit :=
  cls ← get_cls;
  if negb (Form._registered cls) then
    dispatcher ← get_dispatcher;
    g ← FormMeta.state c;
    emit (EvRegister (StatesGroup.states_names g)) ;;
    cls ← get_cls;
    put_cls (install_i18n (Dispatcher.applications dispatcher) cls) ;;
    cls ← get_cls;
    put_cls (Form.set_registered cls true)
  else mret tt.

Definition _start_field_promotion (field : BaseField.t) : M unit :=
  s ← lift (BaseField.state field);
  CurrentState.set_state s ;;
  cls ← get_cls;
  send_message (translate cls (BaseField.label field))
               (Some (BaseField._reply_keyboard field)).

(** The scan of [get_current_field] from position [i] on: [Ok None] when
    the loop falls through (the method then returns [None]). *)
Fixpoint scan (fields : list BaseField.t) (i : nat) (state : option string)
    : result (option FieldRef) :=
  match fields with
  | [] => Ok None
  | field :: rest =>
      match BaseField.state field with
      | Ok s =>
          if bool_decide (Some s = state) then Ok (Some i)
          else scan rest (S i) state
      | Raise e => Raise e
      end
  end.

Definition get_current_field : M (option FieldRef) :=
  state ← CurrentState.get_state;
  cls ← get_cls;
  lift (scan (Form._fields cls) 0 state).

Definition finish : M unit :=
  CurrentState.reset_state false ;;
  cls ← get_cls;
  match Form._callback cls with
  | Some callback =>
      if truthy (Form._callback_args cls) then
        args ← lift (unpack (Form._callback_args cls));
        emit (EvCallback callback args)
      else emit (EvCallback callback [])
  | None => mret tt
  end.

(** [cls.finish()]: the name is looked up on the class, where a binding
    of the class body hides the method that [BaseForm] defines.  What a
    class body binds, a field or a plain value, cannot be called. *)
Definition cls_finish : M unit :=
  cls ← get_cls;
  if bool_decide ("finish" ∈ Form.body cls) then raise TypeError
  else finish.

(** Attribute access on what [get_current_field] returned: [None] has no
    attribute [validate]. *)
Definition the_field (field : option FieldRef) : M BaseField.t :=
  match field with
  | None => raise AttributeError
  | Some i =>
      cls ← get_cls;
      match Form._fields cls !! i with
      | Some f => mret f
      | None => raise AttributeError
      end
  end.

(** [cls._fields.index(field)]: the position of the object. *)
Definition tuple_index (field : option FieldRef) : M nat :=
  cls ← get_cls;
  match field with
  | Some i =>
      if bool_decide (i < length (Form._fields cls)) then mret i
      else raise ValueError
  | None => raise ValueError
  end.

(** [cls._fields[i]] *)
Definition tuple_get (i : nat) : M BaseField.t :=
  cls ← get_cls;
  match Form._fields cls !! i with
  | Some f => mret f
  | None => raise IndexError
  end.

(** [text] is [message.text]; the [state] argument is the FSM context of
    the current chat, the one [current_state()] gives. *)
Definition _handle_input (text : string) : M unit :=
  field ← get_current_field;
  f ← the_field field;
  ok ← BaseField_validate f text;
  if ok : bool then
    k ← lift (BaseField.data_key f);
    CurrentState.update_data k text ;;
    i ← tuple_index field;
    let next_field_index := i + 1 in
    cls ← get_cls;
    if bool_decide (next_field_index < length (Form._fields cls)) then
      next ← tuple_get next_field_index;
      _start_field_promotion next
    else cls_finish
  else
    cls ← get_cls;
    send_message (translate cls (BaseField.validation_error f)) None.

(** A falsy [callback] argument is [None]. *)
Definition start (c : const.t) (callback : option Callback)
    (callback_args : pyval) : M unit :=
  (match callback with
   | Some cb =>
       cls ← get_cls;
       put_cls (Form.set_callback cls cb callback_args)
   | None => mret tt
   end : M unit) ;;
  _register_handler c ;;
  first ← tuple_get 0;
  _start_field_promotion first.

(** [{field.data_key: data.get(field.data_key) for field in fields}],
    built on top of [acc]. *)
Fixpoint comprehension (data : gmap string string)
    (fields : list BaseField.t) (acc : gmap string (option string))
    : result (gmap string (option string)) :=
  match fields with
  | [] => Ok acc
  | field :: rest =>
      match BaseField.data_key field with
      | Ok k => comprehension data rest (<[k := data !! k]> acc)
      | Raise e => Raise e
      end
  end.

Definition get_data : M (gmap string (option string)) :=
  data ← CurrentState.proxy;
  cls ← get_cls;
  lift (comprehension data (Form._fields cls) ∅).
End BaseForm.

(** ** Vocabulary of the statements *)

(** [st] after the calls [es] have been made and nothing else changed. *)
Definition logged (st : St) (es : list event) : St :=
  {| cls := cls st; fsm := fsm st; dispatcher := dispatcher st;
     log := log st ++ es |}.

(** The log entries of calling the validators [vs] on [value]. *)
Definition validate_events (vs : list BaseValidator.t) (value : string)
    : list event :=
  (fun v => EvValidate (BaseValidator.vid v) value) <$> vs.

(** All validators of the field accept [value]. *)
Definition accepts (f : BaseField.t) (value : string) : bool :=
  forallb (fun v => BaseValidator.validate v value) (BaseField._validators f).

Definition is_send (e : event) : bool :=
  match e with EvSendMessage _ _ _ => true | _ => false end.

Definition is_update (e : event) : bool :=
  match e with EvUpdateData _ _ => true | _ => false end.

Definition is_register (e : event) : bool :=
  match e with EvRegister _ => true | _ => false end.

Definition is_callback (e : event) : bool :=
  match e with EvCallback _ _ => true | _ => false end.

Definition is_proxy (e : event) : bool :=
  match e with EvProxy => true | _ => false end.

(** How often a kind of call occurs in a log. *)
Definition count (p : event -> bool) (es : list event) : nat :=
  length (List.filter p es).

(** Every field of the class belongs to it: [_get_form_fields] has set
    [_form] to the class. *)
Definition attached (cls : Form.t) : Prop :=
  Forall (fun f => BaseField._form f = Some (Form.name cls))
         (Form._fields cls).

(** The conversation awaits field [f] at position [i]: the stored state is
    the state assigned to [f], and the fields before it have other states
    assigned. *)
Definition awaiting (st : St) (i : nat) (f : BaseField.t) : Prop :=
  Form._fields (cls st) !! i = Some f
  ∧ is_Some (BaseField._state f)
  ∧ BaseField._state f = FSMContext.state (fsm st)
  ∧ ∀ j g, j < i -> Form._fields (cls st) !! j = Some g ->
      is_Some (BaseField._state g)
      ∧ BaseField._state g ≠ FSMContext.state (fsm st).


(** The positional arguments [finish] passes to the callback. *)
Definition call_args (callback_args : pyval) : result (list pyval) :=
  if truthy callback_args then unpack callback_args else Ok [].

(** The calls of the callback that [finish] makes for the stored pair. *)
Definition completion (callback : option Callback) (callback_args : pyval)
    : list event :=
  match callback, call_args callback_args with
  | Some cb, Ok args => [EvCallback cb args]
  | _, _ => []
  end.

(** No attribute of the namespace is a field. *)
Definition no_fields (namespace : list (string * FormMeta.attr)) : Prop :=
  Forall (fun p => ∃ v, p.2 = FormMeta.Other v) namespace.

(** The mapping [get_data] returns, as a Python value. *)
Definition as_dict (m : gmap string (option string)) : pyval :=
  PyDict ((fun '(k, v) =>
             (k, match v with Some s => PyStr s | None => PyNone end))
          <$> map_to_list m).

(** Calls made on a form from outside, one after the other; an exception
    ends the call that raised it and leaves what it had done. *)
Inductive call :=
| Start (callback : option Callback) (callback_args : pyval)
| Input (text : string)
| Finish
| GetData
| StateProperty.


Definition exec (c : const.t) (op : call) (st : St) : St :=
  match op with
  | Start callback callback_args =>
      (BaseForm.start c callback callback_args st).2
  | Input text => (BaseForm._handle_input text st).2
  | Finish => (BaseForm.finish st).2
  | GetData => (BaseForm.get_data st).2
  | StateProperty => (FormMeta.state c st).2
  end.

Definition run (c : const.t) (ops : list call) (st : St) : St :=
  foldl (fun st op => exec c op st) st ops.

(** A method leaves the view [V] of the state as it found it. *)
Definition preserves {A X : Type} (V : St -> X) (m : M A) : Prop :=
  ∀ st, V (m st).2 = V st.

(** The state [finish] leaves behind. *)
Definition after_finish (st : St) : St :=
  {| cls := cls st;
     fsm := {| FSMContext.state := None;
               FSMContext.data := FSMContext.data (fsm st) |};
     dispatcher := dispatcher st;
     log := log st ++ EvResetState false
              :: completion (Form._callback (cls st))
                            (Form._callback_args (cls st)) |}.

(** The states group the [state] property builds for a class. *)
Definition compile_group (c : const.t) (cls : Form.t) : StatesGroup.t :=
  StatesGroup.create
    (Form.name cls ++ const.STATES_GROUP_SUFFIX c)
    (BaseField.state_label <$> Form._fields cls).

(** The full state name of a field of the class. *)
Definition state_name (c : const.t) (cls : Form.t) (f : BaseField.t)
    : string :=
  (Form.name cls ++ const.STATES_GROUP_SUFFIX c) ++ ":"
    ++ BaseField.state_label f.

(** The class after its [state] property has been read. *)
Definition compiled (c : const.t) (cls : Form.t) : Form.t :=
  match Form._state cls with
  | Some _ => cls
  | None =>
      Form.set_fields (Form.set_state cls (compile_group c cls))
        (FormMeta.assign_states (Form._fields cls)
           (StatesGroup.states_names (compile_group c cls)))
  end.

(** What the [state] property returns for the class. *)
Definition state_group (c : const.t) (cls : Form.t) : StatesGroup.t :=
  match Form._state cls with
  | Some g => g
  | None => compile_group c cls
  end.

Definition with_cls (st : St) (c : Form.t) : St :=
  {| cls := c; fsm := fsm st; dispatcher := dispatcher st; log := log st |}.

(** The state [_register_handler] leaves behind. *)
Definition after_register (c : const.t) (st : St) : St :=
  if Form._registered (cls st) then st
  else
    {| cls :=
         Form.set_registered
           (BaseForm.install_i18n (Dispatcher.applications (dispatcher st))
              (compiled c (cls st)))
           true;
       fsm := fsm st;
       dispatcher := dispatcher st;
       log := log st
                ++ [EvRegister
                      (StatesGroup.states_names (state_group c (cls st)))] |}.

(** The part of the state that only [FormMeta.state], [_register_handler]
    and [start] may change: the class object, and how often the handler was
    registered. *)
Definition class_view (st : St) : Form.t * nat :=
  (cls st, count is_register (log st)).

(** The class after [start] has stored a truthy callback. *)
Definition store_callback (callback : option Callback) (callback_args : pyval)
    (cls : Form.t) : Form.t :=
  match callback with
  | Some cb => Form.set_callback cls cb callback_args
  | None => cls
  end.

(** The state in which [start] reaches [cls._fields[0]]. *)
Definition after_start_setup (c : const.t) (callback : option Callback)
    (callback_args : pyval) (st : St) : St :=
  after_register c (with_cls st (store_callback callback callback_args (cls st))).

(** The data keys of the fields of a class, in field order. *)
Definition data_keys (cls : Form.t) : list string :=
  (fun f => Form.name cls ++ ":" ++ BaseField.key_str f) <$> Form._fields cls.

(** The state in which the handler reaches [finish] (or the next prompt)
    after it has stored an accepted value under [k]. *)
Definition after_store (st : St) (f : BaseField.t) (k text : string) : St :=
  {| cls := cls st;
     fsm := {| FSMContext.state := FSMContext.state (fsm st);
               FSMContext.data := <[k := text]> (FSMContext.data (fsm st)) |};
     dispatcher := dispatcher st;
     log := log st
              ++ EvGetState
              :: validate_events (BaseField._validators f) text
              ++ [EvUpdateData k text] |}.

(** ** A running example: the Signup form

    [name] must be non-empty, [age] must be a non-empty string of digits.
    The conversation is followed from the class statement through
    [start] and the answers. *)
Module Signup.
Definition c : const.t :=
  {| const.STATES_GROUP_SUFFIX := "StatesGroup";
     const.DEFAULT_VALIDATION_ERROR_MESSAGE := "Invalid value" |}.

Definition is_digit (a : ascii) : bool :=
  Nat.leb 48 (nat_of_ascii a) && Nat.leb (nat_of_ascii a) 57.

Fixpoint all_digits (s : string) : bool :=
  match s with
  | EmptyString => true
  | String a r => is_digit a && all_digits r
  end.

Definition nonempty : BaseValidator.t :=
  {| BaseValidator.vid := 1;
     BaseValidator.validate := fun s => negb (bool_decide (s = "")) |}.

Definition numeric : BaseValidator.t :=
  {| BaseValidator.vid := 2;
     BaseValidator.validate := all_digits |}.

Definition short : BaseValidator.t :=
  {| BaseValidator.vid := 3;
     BaseValidator.validate := fun s => Nat.leb (String.length s) 3 |}.

Definition name_field : BaseField.t :=
  BaseField.__init__ c 1 "Your name?" (Some [nonempty]) None None.

Definition age_field : BaseField.t :=
  BaseField.__init__ c 2 "Your age?" (Some [nonempty; numeric; short]) None
    (Some "Digits only").

Definition namespace : list (string * FormMeta.attr) :=
  [("name", FormMeta.Field name_field);
   ("version", FormMeta.Other (PyInt 3));
   ("age", FormMeta.Field age_field)].

(** The class [FormMeta.__new__] builds for the body above. *)
Definition form : Form.t :=
  {| Form.body := namespace.*1;
     Form.name := "Signup";
     Form._fields :=
       FormMeta._get_form_fields "Signup"
         (FormMeta.type_new "Signup" namespace);
     Form._state := None;
     Form._i18n := None;
     Form._registered := false;
     Form._callback := None;
     Form._callback_args := PyNone |}.

(** Before the first [start]. *)
Definition fresh : St :=
  {| cls := form;
     fsm := {| FSMContext.state := None; FSMContext.data := ∅ |};
     dispatcher := {| Dispatcher.chat_id := 42;
                      Dispatcher.applications := [] |};
     log := [] |}.

Definition on_done : Callback := 7.

(** After [start(on_done)]: awaiting the name. *)
Definition started : St := run c [Start (Some on_done) PyNone] fresh.

(** After the name is answered: awaiting the age. *)
Definition named : St :=
  run c [Start (Some on_done) PyNone; Input "Alice"] fresh.


(** A class body without any field. *)
Definition empty_namespace : list (string * FormMeta.attr) :=
  [("title", FormMeta.Other (PyStr "nothing to ask"))].
End Signup.

(** The objects of the example once the class is compiled, and some
    sequences of calls on it. *)
Module SignupRun.

Definition age_awaited : BaseField.t :=
  BaseField.set_state
    (BaseField.set_form
       (BaseField.__set_name__ Signup.age_field "Signup" "age") "Signup")
    "SignupStatesGroup:waiting_age".

Definition restarts : list call :=
  [Start (Some Signup.on_done) PyNone;
   Input "Alice";
   Start None PyNone;
   Input "";
   Start (Some 8) (PyList [PyInt 1]);
   Finish].
End SignupRun.

(** ** Vocabulary of the further properties *)

(** The prompt sent for a field: its label, translated when an i18n
    middleware is installed on the class, with the field's reply keyboard. *)
Definition prompt (st : St) (g : BaseField.t) : event :=
  EvSendMessage (Dispatcher.chat_id (dispatcher st))
    (BaseForm.translate (cls st) (BaseField.label g))
    (Some (BaseField._reply_keyboard g)).

(** The state [_start_field_promotion] leaves behind for a field whose
    state is [s]. *)
Definition after_promotion (st : St) (g : BaseField.t) (s : string) : St :=
  {| cls := cls st;
     fsm := {| FSMContext.state := Some s;
               FSMContext.data := FSMContext.data (fsm st) |};
     dispatcher := dispatcher st;
     log := log st ++ [EvSetState s; prompt st g] |}.

(** Every field of the class has its state, and no two fields share one. *)
Definition ready (cls : Form.t) : Prop :=
  Forall (fun g => is_Some (BaseField._state g)) (Form._fields cls)
  ∧ NoDup (BaseField._state <$> Form._fields cls).

(** The data of the conversation as far as the view of the form class
    is concerned. *)
Definition data_view (st : St) : gmap string string :=
  FSMContext.data (fsm st).

(** [ "i18n" in str(middleware) ] *)
Definition is_i18n (m : Middleware.t) : bool :=
  str_in "i18n" (Middleware.str m).

(** The field attributes of a class body, in namespace order. *)
Fixpoint field_attrs (namespace : list (string * FormMeta.attr))
    : list (string * BaseField.t) :=
  match namespace with
  | [] => []
  | (n, FormMeta.Field f) :: rest => (n, f) :: field_attrs rest
  | (_, FormMeta.Other _) :: rest => field_attrs rest
  end.

(** A field of the class body as the class holds it. *)
Definition bound_field (owner : string) (p : string * BaseField.t)
    : BaseField.t :=
  BaseField.set_form (BaseField.__set_name__ p.2 owner p.1) owner.

(** The data after the values [values] have been stored, in order, under
    the data keys of the fields [fields] of the form [name]. *)
Fixpoint stored (name : string) (fields : list BaseField.t)
    (values : list string) (data : gmap string string)
    : gmap string string :=
  match fields, values with
  | f :: fields', v :: values' =>
      stored name fields' values'
        (<[name ++ ":" ++ BaseField.key_str f := v]> data)
  | _, _ => data
  end.

(** Every value is accepted by the field at its position. *)
Definition all_accepted (fields : list BaseField.t) (values : list string)
    : Prop :=
  Forall2 (fun f v => accepts f v = true) fields values.

(** ** Further examples *)

(** A form whose two fields were named [code] in the classes they were
    first bound in: their keys, and so their state labels, clash. *)
Module Clash.
Definition code_a : BaseField.t :=
  BaseField.__set_name__
    (BaseField.__init__ Signup.c 1 "Order code?" None None None)
    "Order" "code".

Definition code_b : BaseField.t :=
  BaseField.__set_name__
    (BaseField.__init__ Signup.c 2 "Refund code?" None None None)
    "Refund" "code".

Definition namespace : list (string * FormMeta.attr) :=
  [("first", FormMeta.Field code_a); ("second", FormMeta.Field code_b)].

Definition form : Form.t :=
  {| Form.body := namespace.*1;
     Form.name := "Clash";
     Form._fields :=
       FormMeta._get_form_fields "Clash" (FormMeta.type_new "Clash" namespace);
     Form._state := None;
     Form._i18n := None;
     Form._registered := false;
     Form._callback := None;
     Form._callback_args := PyNone |}.

Definition fresh : St :=
  {| cls := form;
     fsm := {| FSMContext.state := None; FSMContext.data := ∅ |};
     dispatcher := {| Dispatcher.chat_id := 42;
                      Dispatcher.applications := [] |};
     log := [] |}.

Definition started : St := run Signup.c [Start None PyNone] fresh.


Definition second_left_out : BaseField.t := BaseField.set_form code_b "Clash".
End Clash.

(** A dispatcher with two i18n middlewares and one other middleware. *)
Module Locale.
Definition german : Middleware.t :=
  {| Middleware.str := "<middlewares.i18n.I18nMiddleware de>";
     Middleware.call := fun text => "[de] " ++ text |}.

Definition logging : Middleware.t :=
  {| Middleware.str := "<middlewares.logging.LoggingMiddleware>";
     Middleware.call := fun text => text |}.

Definition french : Middleware.t :=
  {| Middleware.str := "<middlewares.i18n.I18nMiddleware fr>";
     Middleware.call := fun text => "[fr] " ++ text |}.

Definition fresh : St :=
  {| cls := Signup.form;
     fsm := fsm Signup.fresh;
     dispatcher := {| Dispatcher.chat_id := 42;
                      Dispatcher.applications := [german; logging; french] |};
     log := [] |}.
End Locale.

(** The Signup conversation awaiting the age, with a callback whose
    arguments cannot be unpacked. *)
Definition signup_bad_arguments : St :=
  with_cls Signup.named
    (Form.set_callback (cls Signup.named) Signup.on_done (PyInt 5)).

(** ** Objects and names *)

(** The states assigned position by position, which is what the loop of
    the [state] property comes to when the fields are distinct objects. *)
Fixpoint zip_states (fields : list BaseField.t) (names : list string)
    : list BaseField.t :=
  match fields, names with
  | field :: fields', state_name :: names' =>
      BaseField.set_state field state_name :: zip_states fields' names'
  | _, _ => fields
  end.

(** No field object occurs twice among the fields of the class. *)
Definition distinct_objects (cls : Form.t) : Prop :=
  NoDup (BaseField.oid <$> Form._fields cls).

(** The methods [BaseForm] defines. *)
Definition BaseForm_methods : list string :=
  ["_register_handler"; "_handle_input"; "start"; "_start_field_promotion";
   "get_current_field"; "finish"; "get_data"].

(** The class body binds none of the names of the methods of [BaseForm],
    so each of them is the method on the class. *)
Definition methods_intact (cls : Form.t) : Prop :=
  Forall (fun m => m ∉ Form.body cls) BaseForm_methods.

(** The field objects that a class body binds, one per binding. *)
Fixpoint body_fields (namespace : list (string * FormMeta.attr))
    : list BaseField.t :=
  match namespace with
  | [] => []
  | (_, FormMeta.Field f) :: rest => f :: body_fields rest
  | (_, FormMeta.Other _) :: rest => body_fields rest
  end.

(** No field object is bound to two names of the class body. *)
Definition distinct_bindings (namespace : list (string * FormMeta.attr))
    : Prop :=
  NoDup (BaseField.oid <$> body_fields namespace).

(** [__set_name__] applied to each binding by itself, under its own
    name. *)
Definition name_each (owner : string)
    (namespace : list (string * FormMeta.attr))
    : list (string * FormMeta.attr) :=
  (fun '(name, prop) =>
     match prop with
     | FormMeta.Field f =>
         (name, FormMeta.Field (BaseField.__set_name__ f owner name))
     | FormMeta.Other v => (name, FormMeta.Other v)
     end) <$> namespace.

(** The number of bytes of [s] that begin a code point. *)
Fixpoint lead_bytes (s : string) : nat :=
  match s with
  | EmptyString => 0
  | String a r => (if is_continuation a then 0 else 1) + lead_bytes r
  end.

(** Every byte of [s] continues a code point. *)
Fixpoint continuation_only (s : string) : bool :=
  match s with
  | EmptyString => true
  | String a r => is_continuation a && continuation_only r
  end.

(** The name under which the class body binds the object [o] first. *)
Fixpoint first_binding (namespace : list (string * FormMeta.attr)) (o : nat)
    : option string :=
  match namespace with
  | [] => None
  | (n, FormMeta.Field f) :: rest =>
      if bool_decide (BaseField.oid f = o) then Some n
      else first_binding rest o
  | (_, FormMeta.Other _) :: rest => first_binding rest o
  end.

(** A field after the calls of [__set_name__] for the bindings of
    [namespace]: the calls after the first change nothing. *)
Definition named_by (owner : string)
    (namespace : list (string * FormMeta.attr)) (f : BaseField.t)
    : BaseField.t :=
  match first_binding namespace (BaseField.oid f) with
  | Some n => BaseField.__set_name__ f owner n
  | None => f
  end.

(** A class body that binds one field object to two names:
    [a = Field(...)], [a2 = a], [b = Field(...)]. *)
Module Alias.
Definition shared : BaseField.t :=
  BaseField.__init__ Signup.c 1 "First?" None None None.

Definition other : BaseField.t :=
  BaseField.__init__ Signup.c 2 "Second?" None None None.

Definition namespace : list (string * FormMeta.attr) :=
  [("a", FormMeta.Field shared); ("a2", FormMeta.Field shared);
   ("b", FormMeta.Field other)].

Definition form : Form.t :=
  {| Form.body := namespace.*1;
     Form.name := "Alias";
     Form._fields :=
       FormMeta._get_form_fields "Alias" (FormMeta.type_new "Alias" namespace);
     Form._state := None;
     Form._i18n := None;
     Form._registered := false;
     Form._callback := None;
     Form._callback_args := PyNone |}.

Definition fresh : St :=
  {| cls := form;
     fsm := {| FSMContext.state := None; FSMContext.data := ∅ |};
     dispatcher := {| Dispatcher.chat_id := 42;
                      Dispatcher.applications := [] |};
     log := [] |}.
End Alias.

(** * Properties *)

(** ** Monad laws used in the proofs *)

Lemma bind_ok {A B : Type} (m : M A) (k : A -> M B) st a st' :
  m st = (Ok a, st') -> (m ≫= k) st = k a st'.
Proof. intros H. unfold mbind, M_bind. now rewrite H. Qed.

Lemma bind_raise {A B : Type} (m : M A) (k : A -> M B) st e st' :
  m st = (Raise e, st') -> (m ≫= k) st = (Raise e, st').
Proof. intros H. unfold mbind, M_bind. now rewrite H. Qed.

Lemma logged_nil st : logged st [] = st.
Proof. destruct st. unfold logged. simpl. now rewrite app_nil_r. Qed.

Lemma logged_logged st es1 es2 :
  logged (logged st es1) es2 = logged st (es1 ++ es2)%list.
Proof. unfold logged. simpl. now rewrite app_assoc. Qed.

Lemma emit_logged e st : emit e st = (Ok tt, logged st [e]).
Proof. reflexivity. Qed.

(** Runs the primitive steps of a method on the state at hand. *)
Ltac run_m :=
  repeat (progress
            (unfold mbind, M_bind, mret, M_ret, get_cls, put_cls, get_fsm,
               put_fsm, get_dispatcher, emit, raise, lift, send_message,
               CurrentState.get_state, CurrentState.set_state,
               CurrentState.reset_state, CurrentState.update_data,
               CurrentState.proxy;
             cbn)).

(** ** BaseField.validate *)

Lemma validate_loop_run vs value st :
  validate_loop vs value st =
    (Ok (forallb (fun v => BaseValidator.validate v value) vs),
     logged st (validate_events (invoked vs value) value)).
Proof.
  revert st. induction vs as [|v vs IH]; intros st.
  - simpl. now rewrite logged_nil.
  - cbn [validate_loop invoked forallb].
    unfold call_validator.
    rewrite (bind_ok _ _ st (BaseValidator.validate v value) (logged st [EvValidate (BaseValidator.vid v) value]))
      by reflexivity.
    destruct (BaseValidator.validate v value); simpl.
    + rewrite IH, logged_logged. reflexivity.
    + reflexivity.
Qed.

Lemma invoked_first_failure vs value pre v post :
  vs = (pre ++ v :: post)%list ->
  (∀ u, u ∈ pre -> BaseValidator.validate u value = true) ->
  BaseValidator.validate v value = false ->
  invoked vs value = (pre ++ [v])%list.
Proof.
  intros -> Hpre Hv. induction pre as [|u pre IH]; simpl.
  - now rewrite Hv.
  - rewrite (Hpre u) by constructor.
    f_equal. apply IH. intros w Hw. apply Hpre. now constructor.
Qed.

Lemma invoked_all vs value :
  forallb (fun v => BaseValidator.validate v value) vs = true ->
  invoked vs value = vs.
Proof.
  induction vs as [|v vs IH]; simpl; [reflexivity|].
  destruct (BaseValidator.validate v value); simpl; [|discriminate].
  intros H. now rewrite IH.
Qed.

(** C1: [Field.validate(value)] always returns, and it returns true exactly
    when every validator of the field answers true on [value].  The
    validators are called in order: the calls made are those of the
    validators up to and including the first one that answers false (all of
    them when none does), so no validator after the first failing one is
    called, and nothing else is touched. *)
Theorem validate_all_in_order_short_circuit
    (f : BaseField.t) (value : string) (st : St) :
  ∃ b : bool,
    BaseField_validate f value st =
      (Ok b, logged st (validate_events
                          (invoked (BaseField._validators f) value) value))
    ∧ (b = true ↔
       ∀ v, v ∈ BaseField._validators f ->
            BaseValidator.validate v value = true)
    ∧ (b = true ->
       invoked (BaseField._validators f) value = BaseField._validators f)
    ∧ (∀ pre v post,
         BaseField._validators f = (pre ++ v :: post)%list ->
         (∀ u, u ∈ pre -> BaseValidator.validate u value = true) ->
         BaseValidator.validate v value = false ->
         b = false
         ∧ invoked (BaseField._validators f) value = (pre ++ [v])%list).
Proof.
  exists (accepts f value). unfold BaseField_validate, accepts.
  split; [apply validate_loop_run|].
  split.
  { rewrite forallb_forall. split; intros H v Hv; apply H.
    - now apply list_elem_of_In.
    - now apply list_elem_of_In. }
  split; [apply invoked_all|].
  intros pre v post Hvs Hpre Hv. split.
  - apply not_true_is_false. rewrite forallb_forall. intros H.
    rewrite (H v) in Hv; [discriminate|].
    rewrite Hvs. apply in_or_app. right. now left.
  - eapply invoked_first_failure; eauto.
Qed.

(** ** finish *)

Lemma finish_state st : (BaseForm.finish st).2 = after_finish st.
Proof.
  unfold BaseForm.finish, after_finish, completion, call_args.
  unfold CurrentState.reset_state, mbind, M_bind, emit, get_fsm, put_fsm,
    get_cls, lift, mret, M_ret. simpl.
  destruct (Form._callback (cls st)) as [cb|]; simpl.
  - destruct (truthy (Form._callback_args (cls st))); simpl.
    + destruct (unpack (Form._callback_args (cls st))); simpl.
      * now rewrite <- app_assoc.
      * reflexivity.
    + now rewrite <- app_assoc.
  - reflexivity.
Qed.

Lemma finish_result st :
  (BaseForm.finish st).1 =
    match Form._callback (cls st), call_args (Form._callback_args (cls st)) with
    | Some _, Raise e => Raise e
    | _, _ => Ok tt
    end.
Proof.
  unfold BaseForm.finish, call_args.
  unfold CurrentState.reset_state, mbind, M_bind, emit, get_fsm, put_fsm,
    get_cls, lift, mret, M_ret. simpl.
  destruct (Form._callback (cls st)) as [cb|]; simpl; [|reflexivity].
  destruct (truthy (Form._callback_args (cls st))); simpl; [|reflexivity].
  destruct (unpack (Form._callback_args (cls st))); reflexivity.
Qed.

(** C7: [finish] clears only the state pointer.  Whatever the stored
    callback and its arguments are, after [finish] the conversation's state
    is none and its data map is the one it had before, entry for entry; the
    only call [finish] makes on the state store is
    [reset_state(with_data=False)]. *)
Theorem finish_clears_state_keeps_data (st : St) :
  let st' := (BaseForm.finish st).2 in
  FSMContext.state (fsm st') = None
  ∧ FSMContext.data (fsm st') = FSMContext.data (fsm st)
  ∧ (∀ k, FSMContext.data (fsm st') !! k = FSMContext.data (fsm st) !! k)
  ∧ log st' = (log st ++ EvResetState false
                 :: completion (Form._callback (cls st))
                               (Form._callback_args (cls st)))%list
  ∧ count is_update (completion (Form._callback (cls st))
                                (Form._callback_args (cls st))) = 0.
Proof.
  cbv zeta. rewrite finish_state. unfold after_finish. simpl.
  repeat split.
  unfold completion.
  destruct (Form._callback (cls st)); [|reflexivity].
  destruct (call_args (Form._callback_args (cls st))); reflexivity.
Qed.

(** ** The state property of FormMeta *)

Lemma dict_keys_fresh seen ks :
  NoDup ks -> (∀ k, k ∈ ks -> k ∉ seen) ->
  StatesGroup.dict_keys seen ks = ks.
Proof.
  revert seen. induction ks as [|k ks IH]; intros seen Hnd Hseen; simpl.
  - reflexivity.
  - inversion Hnd as [|? ? Hk Hnd']; subst.
    rewrite bool_decide_eq_false_2 by (apply Hseen; constructor).
    f_equal. apply IH; [assumption|].
    intros k' Hk' Hin. apply elem_of_cons in Hin as [->|Hin].
    + contradiction.
    + apply (Hseen k'); [now constructor|assumption].
Qed.

Lemma assign_others o h refs :
  (∀ g, g ∈ refs -> BaseField.oid g ≠ BaseField.oid o) ->
  BaseField.assign o h refs = refs.
Proof.
  intros Hne. unfold BaseField.assign.
  induction refs as [|g refs IH]; cbn; [reflexivity|].
  unfold BaseField.same_object at 1.
  rewrite bool_decide_eq_false_2 by (apply Hne; constructor).
  f_equal. apply IH. intros g' Hg'. apply Hne. now constructor.
Qed.

Lemma assign_unique o h pre post :
  NoDup (BaseField.oid <$> (pre ++ o :: post)%list) ->
  BaseField.assign o h (pre ++ o :: post)%list = (pre ++ h o :: post)%list.
Proof.
  intros Hnd. rewrite fmap_app in Hnd. cbn in Hnd.
  apply NoDup_app in Hnd as (_ & Hpre & Hpost).
  apply NoDup_cons in Hpost as [Hpost _].
  assert (BaseField.assign o h (pre ++ o :: post)%list
          = (BaseField.assign o h pre ++ BaseField.assign o h (o :: post))%list)
    as -> by (unfold BaseField.assign; apply fmap_app).
  rewrite assign_others.
  - f_equal. unfold BaseField.assign at 1. cbn [fmap list_fmap].
    unfold BaseField.same_object at 1. rewrite bool_decide_eq_true_2 by reflexivity.
    f_equal. apply assign_others. intros g Hg Heq. apply Hpost.
    rewrite <- Heq. apply list_elem_of_fmap. eauto.
  - intros g Hg Heq. apply (Hpre (BaseField.oid g)).
    + apply list_elem_of_fmap. eauto.
    + rewrite Heq. constructor.
Qed.

Lemma assign_loop_distinct todo :
  ∀ pre names,
    NoDup (BaseField.oid <$> (pre ++ todo)%list) ->
    FormMeta.assign_loop todo names (pre ++ todo)%list
    = (pre ++ zip_states todo names)%list.
Proof.
  induction todo as [|f todo IH]; intros pre names Hnd; [now destruct names|].
  destruct names as [|n names]; [reflexivity|].
  cbn [FormMeta.assign_loop zip_states].
  rewrite assign_unique by assumption.
  rewrite (cons_middle (BaseField.set_state f n) pre todo), app_assoc.
  rewrite IH.
  - now rewrite <- app_assoc.
  - rewrite <- app_assoc. cbn. rewrite fmap_app in *. exact Hnd.
Qed.

Lemma assign_states_distinct fields names :
  NoDup (BaseField.oid <$> fields) ->
  FormMeta.assign_states fields names = zip_states fields names.
Proof.
  intros Hnd. unfold FormMeta.assign_states.
  exact (assign_loop_distinct fields [] names Hnd).
Qed.

Lemma zip_states_lookup fields names (i : nat) f s :
  fields !! i = Some f -> names !! i = Some s ->
  zip_states fields names !! i = Some (BaseField.set_state f s).
Proof.
  revert names i. induction fields as [|f0 fields IH];
    intros [|n names] [|i] Hf Hn; simpl in *; try discriminate.
  - congruence.
  - now apply IH.
Qed.

Lemma assign_states_lookup fields names (i : nat) f s :
  NoDup (BaseField.oid <$> fields) ->
  fields !! i = Some f -> names !! i = Some s ->
  FormMeta.assign_states fields names !! i = Some (BaseField.set_state f s).
Proof.
  intros Hnd Hf Hn. rewrite assign_states_distinct by assumption.
  now apply zip_states_lookup.
Qed.

Lemma assign_loop_length todo names fields :
  length (FormMeta.assign_loop todo names fields) = length fields.
Proof.
  revert names fields. induction todo as [|f todo IH]; intros [|n names] fields;
    cbn; try reflexivity.
  rewrite IH. unfold BaseField.assign. apply length_fmap.
Qed.

Lemma assign_states_length fields names :
  length (FormMeta.assign_states fields names) = length fields.
Proof. apply assign_loop_length. Qed.

(** What an assignment of [_state] does not touch. *)
Lemma assign_loop_fmap {B : Type} (h : BaseField.t -> B) todo names fields :
  (∀ g s, h (BaseField.set_state g s) = h g) ->
  h <$> FormMeta.assign_loop todo names fields = h <$> fields.
Proof.
  intros Hh. revert names fields.
  induction todo as [|f todo IH]; intros [|n names] fields;
    cbn [FormMeta.assign_loop]; try reflexivity.
  rewrite IH. unfold BaseField.assign. rewrite <- list_fmap_compose.
  apply list_fmap_ext. intros i g _. cbn.
  destruct (BaseField.same_object g f); [apply Hh|reflexivity].
Qed.

Lemma assign_states_keeps {B : Type} (h : BaseField.t -> B) fields names :
  (∀ g s, h (BaseField.set_state g s) = h g) ->
  h <$> FormMeta.assign_states fields names = h <$> fields.
Proof. apply assign_loop_fmap. Qed.

Lemma state_memo c st g :
  Form._state (cls st) = Some g -> FormMeta.state c st = (Ok g, st).
Proof.
  intros H. unfold FormMeta.state, mbind, M_bind, get_cls. now rewrite H.
Qed.

Lemma state_first c st :
  Form._state (cls st) = None ->
  FormMeta.state c st =
    (Ok (compile_group c (cls st)),
     {| cls := Form.set_fields (Form.set_state (cls st) (compile_group c (cls st)))
                 (FormMeta.assign_states (Form._fields (cls st))
                    (StatesGroup.states_names (compile_group c (cls st))));
        fsm := fsm st; dispatcher := dispatcher st; log := log st |}).
Proof.
  intros H. unfold FormMeta.state, mbind, M_bind, get_cls. now rewrite H.
Qed.

Lemma compile_group_names c cls :
  NoDup (BaseField.state_label <$> Form._fields cls) ->
  StatesGroup.states_names (compile_group c cls) =
    state_name c cls <$> Form._fields cls.
Proof.
  intros Hnd. unfold compile_group, StatesGroup.create. simpl.
  rewrite dict_keys_fresh; [|assumption|intros k _ Hk; inversion Hk].
  rewrite <- list_fmap_compose. reflexivity.
Qed.

Lemma dict_keys_length seen ks :
  length (StatesGroup.dict_keys seen ks) <= length ks.
Proof.
  revert seen. induction ks as [|k ks IH]; intros seen; cbn; [lia|].
  destruct (bool_decide (k ∈ seen)); cbn.
  - specialize (IH seen). lia.
  - specialize (IH (k :: seen)). lia.
Qed.

Lemma compile_group_length c cls :
  length (StatesGroup.states_names (compile_group c cls))
  <= length (Form._fields cls).
Proof.
  unfold compile_group, StatesGroup.create. cbn.
  rewrite length_fmap.
  pose proof (dict_keys_length [] (BaseField.state_label <$> Form._fields cls))
    as H.
  now rewrite length_fmap in H.
Qed.

Lemma dict_keys_distinct seen ks :
  NoDup (StatesGroup.dict_keys seen ks)
  ∧ ∀ k, k ∈ StatesGroup.dict_keys seen ks -> k ∉ seen.
Proof.
  revert seen. induction ks as [|k ks IH]; intros seen; cbn.
  - split; [constructor|]. intros k Hk. inversion Hk.
  - destruct (bool_decide (k ∈ seen)) eqn:Hs; [apply IH|].
    apply bool_decide_eq_false_1 in Hs.
    destruct (IH (k :: seen)) as [Hnd Hout]. split.
    + constructor; [|assumption]. intros Hk.
      apply (Hout k Hk). constructor.
    + intros k' Hk'. apply elem_of_cons in Hk' as [->|Hk']; [assumption|].
      intros Hin. apply (Hout k' Hk'). now constructor.
Qed.

Lemma compile_group_distinct c cls :
  NoDup (StatesGroup.states_names (compile_group c cls)).
Proof.
  unfold compile_group, StatesGroup.create. cbn [StatesGroup.states_names].
  apply NoDup_fmap_2; [|apply dict_keys_distinct].
  intros x y Hxy. apply String.app_inj in Hxy.
  now apply (String.app_inj ":") in Hxy.
Qed.

Lemma dict_keys_short seen ks :
  (¬ NoDup ks ∨ ∃ k, k ∈ ks ∧ k ∈ seen) ->
  length (StatesGroup.dict_keys seen ks) < length ks.
Proof.
  revert seen. induction ks as [|k ks IH]; intros seen H.
  - destruct H as [H|(k & Hk & _)]; [destruct H; constructor|inversion Hk].
  - cbn. destruct (bool_decide (k ∈ seen)) eqn:Hseen.
    + pose proof (dict_keys_length seen ks). lia.
    + apply bool_decide_eq_false_1 in Hseen. cbn.
      apply -> Nat.succ_lt_mono. apply IH.
      destruct H as [H|(k' & Hk' & Hin)].
      * destruct (decide (k ∈ ks)) as [Hk|Hk].
        -- right. exists k. split; [assumption|constructor].
        -- left. intros Hnd. apply H. now constructor.
      * apply elem_of_cons in Hk' as [->|Hk']; [contradiction|].
        right. exists k'. split; [assumption|now constructor].
Qed.

Lemma compile_group_short c cls :
  ¬ NoDup (BaseField.state_label <$> Form._fields cls) ->
  length (StatesGroup.states_names (compile_group c cls))
  < length (Form._fields cls).
Proof.
  intros Hdup. unfold compile_group, StatesGroup.create.
  cbn [StatesGroup.states_names]. rewrite length_fmap.
  pose proof (dict_keys_short [] (BaseField.state_label <$> Form._fields cls)
                (or_introl Hdup)) as H.
  now rewrite length_fmap in H.
Qed.

(** C4 (amended): state compilation is memoized.  Whatever states group a
    class holds, reading [state] returns that very group and changes
    nothing: compilation does not run again, and nothing is duplicated or
    reordered.  On a class that holds none, the first access builds the
    group, whose states are pairwise distinct, and a second access returns
    the same group and changes nothing.  When the fields are distinct
    objects with pairwise distinct state labels, the group has exactly one
    state per field, in declaration order, and every field is assigned the
    state at its own position.  When two fields have the same state label,
    the group has fewer states than the class has fields. *)
Theorem state_compilation_memoized (c : const.t) (st : St) :
  (∀ g, Form._state (cls st) = Some g -> FormMeta.state c st = (Ok g, st))
  ∧ (Form._state (cls st) = None ->
     let g := compile_group c (cls st) in
     let st1 := (FormMeta.state c st).2 in
     FormMeta.state c st = (Ok g, st1)
     ∧ FormMeta.state c st1 = (Ok g, st1)
     ∧ Form._state (cls st1) = Some g
     ∧ fsm st1 = fsm st ∧ log st1 = log st
     ∧ length (Form._fields (cls st1)) = length (Form._fields (cls st))
     ∧ NoDup (StatesGroup.states_names g)
     ∧ (distinct_objects (cls st) ->
        NoDup (BaseField.state_label <$> Form._fields (cls st)) ->
        StatesGroup.states_names g
        = state_name c (cls st) <$> Form._fields (cls st)
        ∧ ∀ (i : nat) f, Form._fields (cls st) !! i = Some f ->
            ∃ s, StatesGroup.states_names g !! i = Some s
                 ∧ s = state_name c (cls st) f
                 ∧ Form._fields (cls st1) !! i
                   = Some (BaseField.set_state f s))
     ∧ (¬ NoDup (BaseField.state_label <$> Form._fields (cls st)) ->
        length (StatesGroup.states_names g)
        < length (Form._fields (cls st)))).
Proof.
  split; [intros g Hg; now apply state_memo|].
  intros Hnone. cbv zeta.
  rewrite (state_first c st Hnone). cbn [snd].
  split; [reflexivity|].
  split; [now apply state_memo|].
  split; [reflexivity|].
  split; [reflexivity|]. split; [reflexivity|].
  split; [simpl; apply assign_states_length|].
  split; [apply compile_group_distinct|].
  split; [|apply compile_group_short].
  intros Hobj Hnd.
  pose proof (compile_group_names c (cls st) Hnd) as Hnames.
  split; [assumption|].
  intros i f Hf. exists (state_name c (cls st) f).
  assert (StatesGroup.states_names (compile_group c (cls st)) !! i
          = Some (state_name c (cls st) f)) as Hs.
  { rewrite Hnames, list_lookup_fmap, Hf. reflexivity. }
  split; [assumption|]. split; [reflexivity|].
  simpl. now apply assign_states_lookup.
Qed.

(** ** Resolving the current field *)

Lemma scan_found fields k state i f :
  fields !! i = Some f ->
  is_Some (BaseField._state f) ->
  BaseField._state f = state ->
  (∀ j g, j < i -> fields !! j = Some g ->
     is_Some (BaseField._state g) ∧ BaseField._state g ≠ state) ->
  BaseForm.scan fields k state = Ok (Some (k + i)).
Proof.
  revert k i. induction fields as [|f0 fields IH]; intros k i Hf Hs Heq Hbefore.
  - discriminate.
  - destruct i as [|i]; simpl in *.
    + injection Hf as ->. destruct Hs as [s Hs].
      unfold BaseField.state. rewrite Hs.
      rewrite bool_decide_eq_true_2 by congruence.
      now rewrite Nat.add_0_r.
    + destruct (Hbefore 0 f0 (Nat.lt_0_succ i) eq_refl) as [[s0 Hs0] Hne].
      unfold BaseField.state. rewrite Hs0.
      rewrite bool_decide_eq_false_2 by congruence.
      rewrite (IH (S k) i Hf Hs Heq).
      * now rewrite Nat.add_succ_r.
      * intros j g Hj Hg. apply (Hbefore (S j) g); [lia|assumption].
Qed.


Lemma get_current_field_run st :
  BaseForm.get_current_field st =
    (BaseForm.scan (Form._fields (cls st)) 0 (FSMContext.state (fsm st)),
     logged st [EvGetState]).
Proof. reflexivity. Qed.

Lemma get_current_field_awaiting st i f :
  awaiting st i f ->
  BaseForm.get_current_field st = (Ok (Some i), logged st [EvGetState]).
Proof.
  intros (Hf & Hs & Heq & Hbefore). rewrite get_current_field_run.
  now rewrite (scan_found _ 0 _ i f Hf Hs Heq Hbefore).
Qed.

Lemma the_field_some st i f :
  Form._fields (cls st) !! i = Some f ->
  BaseForm.the_field (Some i) st = (Ok f, st).
Proof.
  intros H. unfold BaseForm.the_field, mbind, M_bind, get_cls. now rewrite H.
Qed.

Lemma count_app p es1 es2 :
  count p (es1 ++ es2)%list = count p es1 + count p es2.
Proof. unfold count. now rewrite List.filter_app, length_app. Qed.

Lemma count_validate_events p vs value :
  (∀ vid v, p (EvValidate vid v) = false) ->
  count p (validate_events vs value) = 0.
Proof.
  intros Hp. unfold count, validate_events.
  induction vs as [|v vs IH]; simpl; [reflexivity|].
  now rewrite Hp.
Qed.

(** ** A rejected value *)



(** ** Methods that leave the class alone *)

Lemma preserves_bind {A B X : Type} (V : St -> X) (m : M A) (k : A -> M B) :
  preserves V m -> (∀ a, preserves V (k a)) -> preserves V (m ≫= k).
Proof.
  intros Hm Hk st. unfold mbind, M_bind.
  specialize (Hm st). destruct (m st) as [[a|e] st']; cbn [snd] in *.
  - now rewrite Hk.
  - assumption.
Qed.

Lemma preserves_ret {A X : Type} (V : St -> X) (a : A) : preserves V (mret a).
Proof. intros st. reflexivity. Qed.

Lemma preserves_raise {A X : Type} (V : St -> X) (e : exn) :
  preserves V (raise e : M A).
Proof. intros st. reflexivity. Qed.

Lemma preserves_lift {A X : Type} (V : St -> X) (r : result A) :
  preserves V (lift r).
Proof. intros st. reflexivity. Qed.

Lemma preserves_get_cls {X : Type} (V : St -> X) : preserves V get_cls.
Proof. intros st. reflexivity. Qed.

Lemma preserves_get_fsm {X : Type} (V : St -> X) : preserves V get_fsm.
Proof. intros st. reflexivity. Qed.

Lemma preserves_get_dispatcher {X : Type} (V : St -> X) :
  preserves V get_dispatcher.
Proof. intros st. reflexivity. Qed.

Lemma class_view_put_fsm x : preserves class_view (put_fsm x).
Proof. intros st. reflexivity. Qed.

Lemma class_view_emit e :
  is_register e = false -> preserves class_view (emit e).
Proof.
  intros He st. unfold class_view, emit. cbn [snd cls log].
  rewrite count_app. unfold count at 2. cbn [List.filter]. rewrite He.
  cbn [length]. now rewrite Nat.add_0_r.
Qed.

Create HintDb pres discriminated.

#[local] Hint Resolve preserves_ret preserves_raise preserves_lift
  preserves_get_cls preserves_get_fsm preserves_get_dispatcher
  class_view_put_fsm : pres.
#[local] Hint Extern 1 (preserves class_view (emit _)) =>
  apply class_view_emit; reflexivity : pres.

(** Splits a method into its steps, closing each with the lemmas known for
    the steps. *)
Ltac pres :=
  cbv zeta;
  repeat lazymatch goal with
    | |- preserves _ (_ ≫= _) => apply preserves_bind; [|intros ?]
    | |- preserves _ (match ?x with _ => _ end) => destruct x
    | |- preserves _ _ => solve [auto with pres]
    end.

Lemma class_view_get_state : preserves class_view CurrentState.get_state.
Proof. unfold CurrentState.get_state. pres. Qed.

Lemma class_view_set_state s : preserves class_view (CurrentState.set_state s).
Proof. unfold CurrentState.set_state. pres. Qed.

Lemma class_view_reset_state b :
  preserves class_view (CurrentState.reset_state b).
Proof. unfold CurrentState.reset_state. pres. Qed.

Lemma class_view_update_data k v :
  preserves class_view (CurrentState.update_data k v).
Proof. unfold CurrentState.update_data. pres. Qed.

Lemma class_view_proxy : preserves class_view CurrentState.proxy.
Proof. unfold CurrentState.proxy. pres. Qed.

Lemma class_view_send_message text markup :
  preserves class_view (send_message text markup).
Proof. unfold send_message. pres. Qed.

#[local] Hint Resolve class_view_get_state class_view_set_state
  class_view_reset_state class_view_update_data class_view_proxy
  class_view_send_message : pres.

Lemma class_view_validate_loop vs value :
  preserves class_view (validate_loop vs value).
Proof.
  induction vs as [|v vs IH]; cbn [validate_loop]; unfold call_validator; pres.
Qed.

Lemma class_view_validate f value :
  preserves class_view (BaseField_validate f value).
Proof. apply class_view_validate_loop. Qed.

Lemma class_view_promotion f :
  preserves class_view (BaseForm._start_field_promotion f).
Proof. unfold BaseForm._start_field_promotion. pres. Qed.

Lemma class_view_get_current_field :
  preserves class_view BaseForm.get_current_field.
Proof. unfold BaseForm.get_current_field. pres. Qed.

Lemma class_view_finish : preserves class_view BaseForm.finish.
Proof. unfold BaseForm.finish. pres. Qed.

Lemma class_view_the_field r : preserves class_view (BaseForm.the_field r).
Proof. unfold BaseForm.the_field. pres. Qed.

Lemma class_view_tuple_index r : preserves class_view (BaseForm.tuple_index r).
Proof. unfold BaseForm.tuple_index. pres. Qed.

Lemma class_view_tuple_get i : preserves class_view (BaseForm.tuple_get i).
Proof. unfold BaseForm.tuple_get. pres. Qed.

#[local] Hint Resolve class_view_validate class_view_promotion
  class_view_get_current_field class_view_finish class_view_the_field
  class_view_tuple_index class_view_tuple_get : pres.

Lemma class_view_cls_finish : preserves class_view BaseForm.cls_finish.
Proof. unfold BaseForm.cls_finish. pres. Qed.

#[local] Hint Resolve class_view_cls_finish : pres.

Lemma class_view_handle_input text :
  preserves class_view (BaseForm._handle_input text).
Proof. unfold BaseForm._handle_input. pres. Qed.

Lemma class_view_get_data : preserves class_view BaseForm.get_data.
Proof. unfold BaseForm.get_data. pres. Qed.

(** ** Registration and start *)

Lemma state_run c st :
  FormMeta.state c st =
    (Ok (state_group c (cls st)), with_cls st (compiled c (cls st))).
Proof.
  unfold state_group, compiled.
  destruct (Form._state (cls st)) as [g|] eqn:Hg.
  - rewrite (state_memo c st g Hg). destruct st; reflexivity.
  - now rewrite (state_first c st Hg).
Qed.

Lemma install_i18n_registered apps cls :
  Form._registered (BaseForm.install_i18n apps cls) = Form._registered cls.
Proof.
  revert cls. induction apps as [|m apps IH]; intros cls; simpl.
  - reflexivity.
  - destruct (str_in "i18n" (Middleware.str m)); now rewrite IH.
Qed.

Lemma install_i18n_fields apps cls :
  Form._fields (BaseForm.install_i18n apps cls) = Form._fields cls.
Proof.
  revert cls. induction apps as [|m apps IH]; intros cls; simpl.
  - reflexivity.
  - destruct (str_in "i18n" (Middleware.str m)); now rewrite IH.
Qed.

Lemma install_i18n_callback apps cls :
  Form._callback (BaseForm.install_i18n apps cls) = Form._callback cls
  ∧ Form._callback_args (BaseForm.install_i18n apps cls)
    = Form._callback_args cls.
Proof.
  revert cls. induction apps as [|m apps IH]; intros cls; simpl.
  - split; reflexivity.
  - destruct (str_in "i18n" (Middleware.str m)); now rewrite !(proj1 (IH _)), !(proj2 (IH _)).
Qed.

Lemma compiled_callback c cls :
  Form._callback (compiled c cls) = Form._callback cls
  ∧ Form._callback_args (compiled c cls) = Form._callback_args cls
  ∧ Form._registered (compiled c cls) = Form._registered cls
  ∧ length (Form._fields (compiled c cls)) = length (Form._fields cls).
Proof.
  unfold compiled. destruct (Form._state cls); cbn; repeat split.
  apply assign_states_length.
Qed.

Lemma register_handler_run c st :
  BaseForm._register_handler c st = (Ok tt, after_register c st).
Proof.
  unfold BaseForm._register_handler, after_register.
  unfold mbind at 1, M_bind at 1, get_cls at 1.
  destruct (Form._registered (cls st)); cbn [negb].
  - reflexivity.
  - unfold mbind at 1, M_bind at 1, get_dispatcher at 1.
    rewrite (bind_ok _ _ _ _ _ (state_run c st)).
    reflexivity.
Qed.

Lemma snd_bind_preserved {A B X : Type} (V : St -> X) (m : M A) (k : A -> M B)
    st a st' :
  m st = (Ok a, st') -> preserves V (k a) -> V ((m ≫= k) st).2 = V st'.
Proof. intros Hm Hk. rewrite (bind_ok _ _ _ _ _ Hm). apply Hk. Qed.

Lemma start_setup c callback callback_args st :
  class_view (BaseForm.start c callback callback_args st).2
  = class_view (after_start_setup c callback callback_args st).
Proof.
  unfold BaseForm.start, after_start_setup.
  assert ((match callback with
           | Some cb =>
               cls ← get_cls; put_cls (Form.set_callback cls cb callback_args)
           | None => mret tt
           end : M unit) st
          = (Ok tt, with_cls st (store_callback callback callback_args (cls st))))
    as Hcb.
  { destruct callback; [reflexivity|]. destruct st; reflexivity. }
  rewrite (bind_ok _ _ _ _ _ Hcb).
  rewrite (bind_ok _ _ _ _ _ (register_handler_run c _)).
  apply (preserves_bind class_view); [apply class_view_tuple_get|].
  intros f. apply class_view_promotion.
Qed.





Lemma after_register_callback c st :
  Form._callback (cls (after_register c st)) = Form._callback (cls st)
  ∧ Form._callback_args (cls (after_register c st))
    = Form._callback_args (cls st).
Proof.
  unfold after_register. destruct (Form._registered (cls st)).
  - split; reflexivity.
  - cbn [cls Form.set_registered Form._callback Form._callback_args].
    destruct (install_i18n_callback (Dispatcher.applications (dispatcher st))
                (compiled c (cls st))) as [-> ->].
    destruct (compiled_callback c (cls st)) as (-> & -> & _).
    split; reflexivity.
Qed.

Lemma start_callback c callback callback_args st :
  let st' := (BaseForm.start c callback callback_args st).2 in
  Form._callback (cls st')
  = Form._callback (store_callback callback callback_args (cls st))
  ∧ Form._callback_args (cls st')
    = Form._callback_args (store_callback callback callback_args (cls st)).
Proof.
  cbv zeta. pose proof (start_setup c callback callback_args st) as H.
  unfold class_view in H. apply pair_equal_spec in H as [-> _].
  unfold after_start_setup.
  destruct (after_register_callback c
              (with_cls st (store_callback callback callback_args (cls st))))
    as [-> ->].
  split; reflexivity.
Qed.

(** C10: [start] stores a callback only when it is given a truthy one.
    Called with no callback it leaves the stored callback and its arguments
    as they were, so the [finish] that follows calls whatever an earlier
    [start] installed; called with a callback it stores that callback
    together with the arguments given. *)
Theorem start_falsy_callback_keeps_stored
    (c : const.t) (callback_args : pyval) (st : St) :
  (let st' := (BaseForm.start c None callback_args st).2 in
   Form._callback (cls st') = Form._callback (cls st)
   ∧ Form._callback_args (cls st') = Form._callback_args (cls st)
   ∧ log (BaseForm.finish st').2
     = (log st' ++ EvResetState false
          :: completion (Form._callback (cls st))
                        (Form._callback_args (cls st)))%list)
  ∧ (∀ cb,
       let st' := (BaseForm.start c (Some cb) callback_args st).2 in
       Form._callback (cls st') = Some cb
       ∧ Form._callback_args (cls st') = callback_args
       ∧ log (BaseForm.finish st').2
         = (log st' ++ EvResetState false
              :: completion (Some cb) callback_args)%list).
Proof.
  split.
  - cbv zeta.
    destruct (start_callback c None callback_args st) as [H1 H2].
    cbn [store_callback] in H1, H2.
    split; [assumption|]. split; [assumption|].
    rewrite finish_state. unfold after_finish. cbn [log].
    now rewrite H1, H2.
  - intros cb. cbv zeta.
    destruct (start_callback c (Some cb) callback_args st) as [H1 H2].
    cbn [store_callback Form.set_callback Form._callback Form._callback_args]
      in H1, H2.
    split; [assumption|]. split; [assumption|].
    rewrite finish_state. unfold after_finish. cbn [log].
    now rewrite H1, H2.
Qed.

(** ** An unresolved field *)


(** ** A form without fields *)

Lemma set_names_no_fields name todo ns :
  no_fields todo -> FormMeta.set_names name todo ns = ns.
Proof.
  induction 1 as [|[n a] todo [v Hv] _ IH]; [reflexivity|].
  cbn in Hv. subst a. exact IH.
Qed.

Lemma get_form_fields_no_fields name ns :
  no_fields ns ->
  FormMeta._get_form_fields name (FormMeta.type_new name ns) = [].
Proof.
  intros Hns. unfold FormMeta.type_new.
  rewrite (set_names_no_fields name ns ns Hns).
  induction Hns as [|[n a] ns [v Hv] _ IH]; [reflexivity|].
  cbn in Hv. subst a. exact IH.
Qed.

(** C6 (amended): a class body without fields is accepted.  The metaclass
    returns the class, with an empty tuple of fields, and reading its
    [state] property succeeds with an empty states group; the failure comes
    at run time, when [start] is called: after storing the callback and
    registering the handler, [start] raises [IndexError] on
    [cls._fields[0]], without touching the conversation. *)
Theorem empty_form_fails_at_start
    (c : const.t) (name : string) (ns : list (string * FormMeta.attr)) :
  no_fields ns ->
  ∃ form,
    FormMeta.__new__ name ns = Ok form
    ∧ Form._fields form = []
    ∧ ∀ st, cls st = form ->
        (FormMeta.state c st).1
        = Ok (StatesGroup.create (name ++ const.STATES_GROUP_SUFFIX c) [])
        ∧ ∀ callback callback_args,
            let r := BaseForm.start c callback callback_args st in
            r.1 = Raise IndexError
            ∧ fsm r.2 = fsm st
            ∧ Form._registered (cls r.2) = true
            ∧ log r.2
              = (log st
                   ++ [EvRegister
                         (StatesGroup.states_names
                            (StatesGroup.create
                               (name ++ const.STATES_GROUP_SUFFIX c) []))])%list.
Proof.
  intros Hns. unfold FormMeta.__new__.
  rewrite (get_form_fields_no_fields name ns Hns).
  eexists. split; [reflexivity|]. split; [reflexivity|].
  intros st Hcls. split.
  { rewrite state_run. cbn [fst]. unfold state_group. rewrite Hcls. reflexivity. }
  intros callback callback_args. cbv zeta.
  unfold BaseForm.start.
  assert ((match callback with
           | Some cb =>
               cls ← get_cls; put_cls (Form.set_callback cls cb callback_args)
           | None => mret tt
           end : M unit) st
          = (Ok tt, with_cls st (store_callback callback callback_args (cls st))))
    as Hcb.
  { destruct callback; [reflexivity|]. destruct st; reflexivity. }
  rewrite (bind_ok _ _ _ _ _ Hcb).
  rewrite (bind_ok _ _ _ _ _ (register_handler_run c _)).
  unfold after_register, with_cls. cbn [cls fsm dispatcher log].
  rewrite Hcls.
  destruct callback; cbn;
    match goal with
    | |- context [(BaseForm.tuple_get 0 ≫= ?k) ?s] =>
        assert ((BaseForm.tuple_get 0 ≫= k) s = (Raise IndexError, s)) as ->
          by (apply bind_raise;
              unfold BaseForm.tuple_get, mbind, M_bind, get_cls; cbn;
              now rewrite install_i18n_fields)
    end; cbn; repeat split.
Qed.

(** ** get_data *)

Lemma comprehension_lookup data name fields acc :
  Forall (fun f => BaseField._form f = Some name) fields ->
  ∃ m,
    BaseForm.comprehension data fields acc = Ok m
    ∧ ∀ k, m !! k =
           if bool_decide
                (k ∈ (fun f => name ++ ":" ++ BaseField.key_str f) <$> fields)
           then Some (data !! k) else acc !! k.
Proof.
  intros Hall. revert acc.
  induction Hall as [|f fields Hf _ IH]; intros acc.
  - exists acc. split; [reflexivity|]. intros k.
    rewrite bool_decide_eq_false_2; [reflexivity|]. cbn. apply not_elem_of_nil.
  - cbn [BaseForm.comprehension]. unfold BaseField.data_key. rewrite Hf.
    destruct (IH (<[name ++ ":" ++ BaseField.key_str f
                    := data !! (name ++ ":" ++ BaseField.key_str f)]> acc))
      as (m & Hm & Hlook).
    exists m. split; [assumption|]. intros k. rewrite Hlook.
    cbn [fmap list_fmap].
    destruct (decide (k = name ++ ":" ++ BaseField.key_str f)) as [->|Hne].
    + rewrite lookup_insert_eq.
      rewrite (bool_decide_eq_true_2
                 (_ ∈ _ :: _)) by (apply elem_of_cons; now left).
      now destruct (bool_decide _).
    + rewrite lookup_insert_ne by congruence.
      destruct (bool_decide
                  (k ∈ (fun f => name ++ ":" ++ BaseField.key_str f) <$> fields))
        eqn:Hin.
      * apply bool_decide_eq_true_1 in Hin.
        rewrite bool_decide_eq_true_2; [reflexivity|].
        apply elem_of_cons. now right.
      * apply bool_decide_eq_false_1 in Hin.
        rewrite bool_decide_eq_false_2; [reflexivity|].
        intros Hk. apply elem_of_cons in Hk as [Hk|Hk]; contradiction.
Qed.

Lemma get_data_run st :
  attached (cls st) ->
  ∃ m,
    BaseForm.get_data st = (Ok m, logged st [EvProxy])
    ∧ ∀ k, m !! k =
           if bool_decide (k ∈ data_keys (cls st))
           then Some (FSMContext.data (fsm st) !! k) else None.
Proof.
  intros Hatt.
  destruct (comprehension_lookup (FSMContext.data (fsm st))
              (Form.name (cls st)) (Form._fields (cls st)) ∅ Hatt)
    as (m & Hm & Hlook).
  exists m. split.
  - unfold BaseForm.get_data. run_m. rewrite Hm. reflexivity.
  - intros k. rewrite Hlook. unfold data_keys. now rewrite lookup_empty.
Qed.

(** C9: for a class whose fields belong to it, [get_data] returns a mapping
    whose keys are exactly the data keys of the fields; each field's key is
    mapped to the value stored under it in the conversation's data, or to
    [None] when nothing is stored under it.  The data is read through one
    [state.proxy()] acquisition, the only call [get_data] makes, and
    nothing is changed. *)
Theorem get_data_snapshot (st : St) :
  attached (cls st) ->
  ∃ m : gmap string (option string),
    BaseForm.get_data st = (Ok m, logged st [EvProxy])
    ∧ dom m = list_to_set (data_keys (cls st))
    ∧ (∀ f, f ∈ Form._fields (cls st) ->
         ∃ k, BaseField.data_key f = Ok k
              ∧ k = Form.name (cls st) ++ ":" ++ BaseField.key_str f
              ∧ m !! k = Some (FSMContext.data (fsm st) !! k))
    ∧ (∀ k v, m !! k = Some (Some v) ↔
              k ∈ data_keys (cls st) ∧ FSMContext.data (fsm st) !! k = Some v)
    ∧ (∀ k, m !! k = Some None ↔
            k ∈ data_keys (cls st) ∧ FSMContext.data (fsm st) !! k = None)
    ∧ count is_proxy [EvProxy] = 1.
Proof.
  intros Hatt. destruct (get_data_run st Hatt) as (m & Hrun & Hlook).
  exists m. split; [assumption|].
  split.
  { apply set_eq. intros k. rewrite elem_of_dom, elem_of_list_to_set, Hlook.
    destruct (bool_decide (k ∈ data_keys (cls st))) eqn:Hin.
    - apply bool_decide_eq_true_1 in Hin. split; [auto|]. intros _. eauto.
    - apply bool_decide_eq_false_1 in Hin. split; [|contradiction].
      intros [x Hx]. discriminate. }
  split.
  { intros f Hf. exists (Form.name (cls st) ++ ":" ++ BaseField.key_str f).
    split.
    - unfold BaseField.data_key.
      unfold attached in Hatt. rewrite Forall_forall in Hatt.
      now rewrite (Hatt f Hf).
    - split; [reflexivity|]. rewrite Hlook.
      rewrite bool_decide_eq_true_2; [reflexivity|].
      unfold data_keys. apply list_elem_of_fmap. eauto. }
  split; [|split; [|reflexivity]].
  - intros k v. rewrite Hlook.
    destruct (bool_decide (k ∈ data_keys (cls st))) eqn:Hin.
    + apply bool_decide_eq_true_1 in Hin. split.
      * intros H. split; [assumption|]. congruence.
      * intros [_ H]. now rewrite H.
    + apply bool_decide_eq_false_1 in Hin. split; [discriminate|].
      intros [H _]. contradiction.
  - intros k. rewrite Hlook.
    destruct (bool_decide (k ∈ data_keys (cls st))) eqn:Hin.
    + apply bool_decide_eq_true_1 in Hin. split.
      * intros H. split; [assumption|]. congruence.
      * intros [_ H]. now rewrite H.
    + apply bool_decide_eq_false_1 in Hin. split; [discriminate|].
      intros [H _]. contradiction.
Qed.

(** ** An accepted value for the last field *)

Lemma attached_data_key cls f :
  attached cls -> f ∈ Form._fields cls ->
  BaseField.data_key f
  = Ok (Form.name cls ++ ":" ++ BaseField.key_str f).
Proof.
  unfold attached. rewrite Forall_forall. intros H Hf.
  unfold BaseField.data_key. now rewrite (H f Hf).
Qed.

Lemma update_data_run k v st :
  CurrentState.update_data k v st =
    (Ok tt,
     {| cls := cls st;
        fsm := {| FSMContext.state := FSMContext.state (fsm st);
                  FSMContext.data := <[k := v]> (FSMContext.data (fsm st)) |};
        dispatcher := dispatcher st;
        log := log st ++ [EvUpdateData k v] |}).
Proof. reflexivity. Qed.

Lemma tuple_index_run st i :
  i < length (Form._fields (cls st)) ->
  BaseForm.tuple_index (Some i) st = (Ok i, st).
Proof.
  intros H. unfold BaseForm.tuple_index, mbind, M_bind, get_cls.
  now rewrite bool_decide_eq_true_2.
Qed.

Lemma handle_input_last st i f text k :
  awaiting st i f ->
  accepts f text = true ->
  BaseField.data_key f = Ok k ->
  S i = length (Form._fields (cls st)) ->
  BaseForm._handle_input text st = BaseForm.cls_finish (after_store st f k text).
Proof.
  intros Haw Hacc Hk Hlast. unfold BaseForm._handle_input.
  rewrite (bind_ok _ _ _ _ _ (get_current_field_awaiting st i f Haw)).
  destruct Haw as (Hf & _).
  rewrite (bind_ok _ _ _ _ _ (the_field_some (logged st [EvGetState]) i f Hf)).
  unfold BaseField_validate.
  rewrite (bind_ok _ _ _ _ _ (validate_loop_run _ text _)).
  fold (accepts f text). rewrite Hacc. rewrite (invoked_all _ _ Hacc).
  rewrite logged_logged. rewrite Hk.
  rewrite (bind_ok (lift (Ok k)) _ _ k _ eq_refl).
  rewrite (bind_ok _ _ _ _ _ (update_data_run k text _)).
  match goal with
  | |- context [(BaseForm.tuple_index (Some i) ≫= ?k) ?s] =>
      rewrite (bind_ok _ k s i s (tuple_index_run s i ltac:(unfold logged; cbn; lia)))
  end.
  cbv zeta.
  rewrite (bind_ok get_cls _ _ _ _ eq_refl). cbn [cls logged].
  rewrite bool_decide_eq_false_2 by lia.
  unfold after_store, logged. cbn. now rewrite <- !app_assoc.
Qed.

Lemma cls_finish_intact st :
  "finish" ∉ Form.body (cls st) ->
  BaseForm.cls_finish st = BaseForm.finish st.
Proof.
  intros H. unfold BaseForm.cls_finish.
  rewrite (bind_ok get_cls _ _ _ _ eq_refl).
  now rewrite bool_decide_eq_false_2.
Qed.

Lemma cls_finish_shadowed st :
  "finish" ∈ Form.body (cls st) ->
  BaseForm.cls_finish st = (Raise TypeError, st).
Proof.
  intros H. unfold BaseForm.cls_finish.
  rewrite (bind_ok get_cls _ _ _ _ eq_refl).
  now rewrite bool_decide_eq_true_2.
Qed.

Lemma methods_intact_finish cls :
  methods_intact cls -> "finish" ∉ Form.body cls.
Proof.
  unfold methods_intact, BaseForm_methods. rewrite Forall_forall.
  intros H. apply H. repeat constructor.
Qed.

Lemma call_args_raise v e : call_args v = Raise e -> e = TypeError.
Proof.
  unfold call_args. destruct (truthy v); [|discriminate].
  destruct v; cbn; congruence.
Qed.

Lemma handle_input_last_intact st i f text k :
  "finish" ∉ Form.body (cls st) ->
  awaiting st i f ->
  accepts f text = true ->
  BaseField.data_key f = Ok k ->
  S i = length (Form._fields (cls st)) ->
  BaseForm._handle_input text st = BaseForm.finish (after_store st f k text).
Proof.
  intros Hbody Haw Hacc Hk Hlast.
  rewrite (handle_input_last st i f text k Haw Hacc Hk Hlast).
  now apply cls_finish_intact.
Qed.

(** C2 (amended): take a form whose class body binds none of the method
    names of [BaseForm] and whose fields belong to it.  When the
    conversation awaits the last field and the inbound value passes the
    field's validators, the value is stored under the field's data key,
    the conversation's state is reset to none and the data is kept.  With
    a stored callback and stored callback arguments that are falsy or can
    be unpacked, the callback is then called exactly once, with the
    arguments unpacked (with no argument when they are falsy): the
    collected data is not passed to it.  With a stored callback and truthy
    arguments that cannot be unpacked, the handler raises [TypeError]
    after the reset and the callback is not called.  With no stored
    callback the handler returns without a call.  In every case the data
    remains in the store, and [get_data] called afterwards returns exactly
    one entry per field data key, the last field's being the value just
    accepted. *)
Theorem last_field_success_finishes
    (st : St) (i : nat) (f : BaseField.t) (text : string) :
  methods_intact (cls st) ->
  attached (cls st) ->
  awaiting st i f ->
  S i = length (Form._fields (cls st)) ->
  accepts f text = true ->
  let r := BaseForm._handle_input text st in
  let k := Form.name (cls st) ++ ":" ++ BaseField.key_str f in
  FSMContext.state (fsm r.2) = None
  ∧ FSMContext.data (fsm r.2) = <[k := text]> (FSMContext.data (fsm st))
  ∧ cls r.2 = cls st
  ∧ log r.2
    = (log st
         ++ EvGetState
         :: validate_events (BaseField._validators f) text
         ++ EvUpdateData k text
         :: EvResetState false
         :: completion (Form._callback (cls st))
                       (Form._callback_args (cls st)))%list
  ∧ (∀ cb args,
       Form._callback (cls st) = Some cb ->
       call_args (Form._callback_args (cls st)) = Ok args ->
       r.1 = Ok tt
       ∧ completion (Form._callback (cls st)) (Form._callback_args (cls st))
         = [EvCallback cb args]
       ∧ count is_callback (drop (length (log st)) (log r.2)) = 1)
  ∧ (∀ cb e,
       Form._callback (cls st) = Some cb ->
       call_args (Form._callback_args (cls st)) = Raise e ->
       r.1 = Raise TypeError
       ∧ truthy (Form._callback_args (cls st)) = true
       ∧ completion (Form._callback (cls st)) (Form._callback_args (cls st))
         = []
       ∧ count is_callback (drop (length (log st)) (log r.2)) = 0)
  ∧ (Form._callback (cls st) = None ->
     r.1 = Ok tt
     ∧ count is_callback (drop (length (log st)) (log r.2)) = 0)
  ∧ ∃ m : gmap string (option string),
      (BaseForm.get_data r.2).1 = Ok m
      ∧ dom m = list_to_set (data_keys (cls st))
      ∧ m !! k = Some (Some text).
Proof.
  intros Hint Hatt Haw Hlast Hacc. cbv zeta.
  assert (f ∈ Form._fields (cls st)) as Hin.
  { destruct Haw as (Hf & _). apply list_elem_of_lookup. eauto. }
  pose proof (attached_data_key (cls st) f Hatt Hin) as Hk.
  rewrite (handle_input_last_intact st i f text _
             (methods_intact_finish _ Hint) Haw Hacc Hk Hlast).
  rewrite finish_state, finish_result.
  unfold after_finish, after_store. cbn [cls fsm dispatcher log FSMContext.data
    FSMContext.state].
  set (k := Form.name (cls st) ++ ":" ++ BaseField.key_str f) in *.
  set (done := completion (Form._callback (cls st))
                          (Form._callback_args (cls st))).
  assert (∀ p, (∀ vid v, p (EvValidate vid v) = false) ->
            p EvGetState = false -> p (EvUpdateData k text) = false ->
            p (EvResetState false) = false ->
            count p (drop (length (log st))
                       ((log st
                           ++ EvGetState
                           :: validate_events (BaseField._validators f) text
                           ++ [EvUpdateData k text])
                          ++ EvResetState false :: done))
            = count p done) as Hcount.
  { intros p Hv Hg Hu Hr. rewrite <- app_assoc, drop_app_length.
    change (EvGetState :: ?l ++ ?r)%list with ([EvGetState] ++ l ++ r)%list.
    rewrite !count_app. rewrite (count_validate_events p _ _ Hv).
    unfold count. cbn [List.filter app]. rewrite Hg, Hu. cbn [List.filter].
    rewrite Hr. reflexivity. }
  split; [reflexivity|]. split; [reflexivity|]. split; [reflexivity|].
  split.
  { rewrite <- !app_assoc. cbn [app]. rewrite <- app_assoc. reflexivity. }
  split.
  { intros cb args Hcb Hargs. subst done. unfold completion.
    rewrite Hcount by reflexivity.
    unfold completion. rewrite Hcb, Hargs. repeat split. }
  split.
  { intros cb e Hcb Hargs. subst done.
    rewrite Hcount by reflexivity.
    unfold completion. rewrite Hcb, Hargs.
    rewrite (call_args_raise _ _ Hargs).
    split; [reflexivity|]. split; [|split; reflexivity].
    unfold call_args in Hargs.
    destruct (truthy (Form._callback_args (cls st))); [reflexivity|discriminate]. }
  split.
  { intros Hcb. subst done. rewrite Hcount by reflexivity.
    unfold completion. rewrite Hcb. split; reflexivity. }
  match goal with
  | |- context [BaseForm.get_data ?s] =>
      destruct (get_data_run s Hatt) as (m & Hrun & Hlook)
  end.
  exists m. rewrite Hrun. split; [reflexivity|].
  cbn [cls fsm FSMContext.data] in Hlook.
  split.
  - apply set_eq. intros x. rewrite elem_of_dom, elem_of_list_to_set, Hlook.
    destruct (bool_decide (x ∈ data_keys (cls st))) eqn:Hx.
    + apply bool_decide_eq_true_1 in Hx. split; [auto|]. intros _. eauto.
    + apply bool_decide_eq_false_1 in Hx. split; [|contradiction].
      intros [y Hy]. discriminate.
  - rewrite Hlook. rewrite bool_decide_eq_true_2.
    + now rewrite lookup_insert_eq.
    + unfold data_keys. apply list_elem_of_fmap. exists f. split; [reflexivity|assumption].
Qed.

(** ** Forms built by the metaclass *)

Lemma get_form_fields_attached name ns :
  Forall (fun f => BaseField._form f = Some name)
         (FormMeta._get_form_fields name ns).
Proof.
  induction ns as [|[n [f|v]] ns IH]; cbn; [constructor| |assumption].
  constructor; [reflexivity|assumption].
Qed.

Lemma assign_ns_others o h ns :
  (∀ g, g ∈ body_fields ns -> BaseField.oid g ≠ BaseField.oid o) ->
  FormMeta.assign_ns o h ns = ns.
Proof.
  intros Hne. unfold FormMeta.assign_ns.
  induction ns as [|[n [f|v]] ns IH]; cbn; [reflexivity| |].
  - unfold BaseField.same_object at 1.
    rewrite bool_decide_eq_false_2 by (apply Hne; constructor).
    f_equal. apply IH. intros g Hg. apply Hne. now constructor.
  - f_equal. apply IH. intros g Hg. apply Hne. exact Hg.
Qed.

Lemma body_fields_app ns1 ns2 :
  body_fields (ns1 ++ ns2)%list = (body_fields ns1 ++ body_fields ns2)%list.
Proof.
  induction ns1 as [|[n [f|v]] ns1 IH]; cbn; [reflexivity| |assumption].
  now rewrite IH.
Qed.

Lemma body_fields_name_each owner ns :
  BaseField.oid <$> body_fields (name_each owner ns)
  = BaseField.oid <$> body_fields ns.
Proof.
  unfold name_each.
  induction ns as [|[n [f|v]] ns IH]; cbn; [reflexivity| |assumption].
  now rewrite IH.
Qed.

Lemma assign_ns_unique o h pre n post :
  NoDup (BaseField.oid
           <$> body_fields (pre ++ (n, FormMeta.Field o) :: post)%list) ->
  FormMeta.assign_ns o h (pre ++ (n, FormMeta.Field o) :: post)%list
  = (pre ++ (n, FormMeta.Field (h o)) :: post)%list.
Proof.
  intros Hnd. rewrite body_fields_app, fmap_app in Hnd. cbn in Hnd.
  apply NoDup_app in Hnd as (_ & Hpre & Hpost).
  apply NoDup_cons in Hpost as [Hpost _].
  assert (FormMeta.assign_ns o h (pre ++ (n, FormMeta.Field o) :: post)%list
          = (FormMeta.assign_ns o h pre
               ++ FormMeta.assign_ns o h ((n, FormMeta.Field o) :: post))%list)
    as -> by (unfold FormMeta.assign_ns; apply fmap_app).
  rewrite assign_ns_others.
  - f_equal. unfold FormMeta.assign_ns at 1. cbn [fmap list_fmap].
    unfold BaseField.same_object at 1.
    rewrite bool_decide_eq_true_2 by reflexivity.
    f_equal. apply assign_ns_others. intros g Hg Heq. apply Hpost.
    rewrite <- Heq. apply list_elem_of_fmap. eauto.
  - intros g Hg Heq. apply (Hpre (BaseField.oid g)).
    + apply list_elem_of_fmap. eauto.
    + rewrite Heq. constructor.
Qed.

Lemma set_names_distinct owner todo :
  ∀ pre,
    NoDup (BaseField.oid <$> body_fields (pre ++ todo)%list) ->
    FormMeta.set_names owner todo (pre ++ todo)%list
    = (pre ++ name_each owner todo)%list.
Proof.
  induction todo as [|[n [f|v]] todo IH]; intros pre Hnd.
  - reflexivity.
  - cbn [FormMeta.set_names].
    rewrite assign_ns_unique by assumption.
    rewrite (cons_middle _ pre todo), app_assoc.
    rewrite IH.
    + now rewrite <- app_assoc.
    + rewrite <- app_assoc. cbn.
      rewrite body_fields_app, fmap_app in *. exact Hnd.
  - cbn [FormMeta.set_names].
    rewrite (cons_middle _ pre todo), app_assoc.
    rewrite IH.
    + now rewrite <- app_assoc.
    + rewrite <- app_assoc. cbn.
      rewrite body_fields_app, fmap_app in *. exact Hnd.
Qed.

(** When no field object is bound twice, every binding is named by
    itself. *)
Lemma type_new_distinct owner ns :
  distinct_bindings ns -> FormMeta.type_new owner ns = name_each owner ns.
Proof.
  intros Hnd. unfold FormMeta.type_new.
  exact (set_names_distinct owner ns [] Hnd).
Qed.

Lemma get_form_fields_oid name ns :
  BaseField.oid <$> FormMeta._get_form_fields name ns
  = BaseField.oid <$> body_fields ns.
Proof.
  induction ns as [|[n [f|v]] ns IH]; cbn; [reflexivity| |assumption].
  now rewrite IH.
Qed.

Lemma get_form_fields_labels name ns l :
  (∀ n f, (n, FormMeta.Field f) ∈ ns -> BaseField._key f = None) ->
  l ∈ BaseField.state_label
        <$> FormMeta._get_form_fields name (name_each name ns) ->
  ∃ n, n ∈ ns.*1 ∧ l = "waiting_" ++ n.
Proof.
  induction ns as [|[n [f|v]] ns IH]; intros Hkey Hl; cbn in Hl.
  - inversion Hl.
  - apply elem_of_cons in Hl as [->|Hl].
    + exists n. split; [cbn; constructor|].
      unfold BaseField.state_label, BaseField.key_str. cbn.
      now rewrite (Hkey n f) by constructor.
    + destruct IH as (n' & Hn' & ->); [|assumption|].
      * intros n0 f0 H0. apply (Hkey n0). now constructor.
      * exists n'. split; [cbn; now constructor|reflexivity].
  - destruct IH as (n' & Hn' & ->); [|assumption|].
    + intros n0 f0 H0. apply (Hkey n0). now constructor.
    + exists n'. split; [cbn; now constructor|reflexivity].
Qed.

(** A class statement whose attribute names are distinct (they are the keys
    of a dict) and whose fields have no key of their own yields a class
    that has not been compiled or registered, whose fields belong to it and
    have pairwise distinct state labels: the classes the theorems below are
    about. *)
Lemma new_class_wellformed name ns :
  NoDup ns.*1 ->
  distinct_bindings ns ->
  (∀ n f, (n, FormMeta.Field f) ∈ ns -> BaseField._key f = None) ->
  ∃ form,
    FormMeta.__new__ name ns = Ok form
    ∧ Form.name form = name
    ∧ Form._state form = None
    ∧ Form._registered form = false
    ∧ attached form
    ∧ distinct_objects form
    ∧ NoDup (BaseField.state_label <$> Form._fields form).
Proof.
  intros Hnd Hobj Hkey. eexists. split; [reflexivity|].
  unfold distinct_objects. cbn.
  rewrite (type_new_distinct name ns Hobj).
  split; [reflexivity|]. split; [reflexivity|]. split; [reflexivity|].
  split; [apply get_form_fields_attached|].
  split.
  { rewrite get_form_fields_oid, body_fields_name_each. exact Hobj. }
  clear Hobj.
  - induction ns as [|[n [f|v]] ns IH]; cbn in *.
    + constructor.
    + inversion Hnd as [|? ? Hn Hnd']; subst. constructor.
      * intros Hl.
        destruct (get_form_fields_labels name ns _
                    (fun n0 f0 H0 => Hkey n0 f0 (list_elem_of_further _ _ _ H0))
                    Hl) as (n' & Hn' & Heq).
        unfold BaseField.state_label, BaseField.key_str in Heq. cbn in Heq.
        rewrite (Hkey n f) in Heq by constructor. cbn in Heq.
        apply (String.app_inj "waiting_") in Heq. now subst.
      * apply IH; [assumption|].
        intros n0 f0 H0. apply (Hkey n0). now constructor.
    + inversion Hnd; subst. apply IH; [assumption|].
      intros n0 f0 H0. apply (Hkey n0). now constructor.
Qed.

Lemma assign_states_attached name fields names :
  Forall (fun f => BaseField._form f = Some name) fields ->
  Forall (fun f => BaseField._form f = Some name)
         (FormMeta.assign_states fields names).
Proof.
  intros H.
  apply (Forall_fmap BaseField._form (fun x => x = Some name)).
  rewrite assign_states_keeps by reflexivity.
  now apply (Forall_fmap BaseField._form (fun x => x = Some name)).
Qed.

Lemma compiled_attached c cls : attached cls -> attached (compiled c cls).
Proof.
  unfold attached, compiled. destruct (Form._state cls); [auto|].
  cbn. apply assign_states_attached.
Qed.

Lemma install_i18n_name apps cls :
  Form.name (BaseForm.install_i18n apps cls) = Form.name cls.
Proof.
  revert cls. induction apps as [|m apps IH]; intros cls; simpl.
  - reflexivity.
  - destruct (str_in "i18n" (Middleware.str m)); now rewrite IH.
Qed.

Lemma exec_attached c op st :
  attached (cls st) -> attached (cls (exec c op st)).
Proof.
  intros Hatt. destruct op as [cb args|text| | |]; cbn [exec].
  - pose proof (start_setup c cb args st) as H.
    unfold class_view in H. apply pair_equal_spec in H as [-> _].
    unfold after_start_setup, after_register. cbn [with_cls cls].
    assert (attached (store_callback cb args (cls st))) as Hcb
      by (destruct cb; assumption).
    destruct (Form._registered (store_callback cb args (cls st)));
      [assumption|].
    cbn [cls]. apply (compiled_attached c) in Hcb.
    unfold attached in *. cbn.
    now rewrite install_i18n_fields, install_i18n_name.
  - pose proof (class_view_handle_input text st) as H.
    unfold class_view in H. now apply pair_equal_spec in H as [-> _].
  - pose proof (class_view_finish st) as H.
    unfold class_view in H. now apply pair_equal_spec in H as [-> _].
  - pose proof (class_view_get_data st) as H.
    unfold class_view in H. now apply pair_equal_spec in H as [-> _].
  - rewrite state_run. cbn [snd with_cls cls]. now apply compiled_attached.
Qed.

(** The fields of a class built by the metaclass belong to it, and stay so
    whatever is called on the form. *)
Lemma reachable_attached c name ns form ops st :
  FormMeta.__new__ name ns = Ok form ->
  cls st = form ->
  attached (cls (run c ops st)).
Proof.
  intros Hnew Hcls.
  assert (attached (cls st)) as Hatt.
  { rewrite Hcls. unfold FormMeta.__new__ in Hnew. injection Hnew as <-.
    apply get_form_fields_attached. }
  clear Hnew Hcls. revert st Hatt.
  induction ops as [|op ops IH]; intros st Hatt; cbn [run foldl].
  - assumption.
  - apply IH. now apply exec_attached.
Qed.

Lemma scan_sound fields k state i :
  BaseForm.scan fields k state = Ok (Some i) ->
  k <= i
  ∧ ∃ f, fields !! (i - k) = Some f
         ∧ is_Some (BaseField._state f)
         ∧ BaseField._state f = state
         ∧ ∀ j g, j < i - k -> fields !! j = Some g ->
             is_Some (BaseField._state g) ∧ BaseField._state g ≠ state.
Proof.
  revert k. induction fields as [|f0 fields IH]; intros k; cbn.
  - discriminate.
  - unfold BaseField.state.
    destruct (BaseField._state f0) as [s0|] eqn:Hs0; [|discriminate].
    destruct (bool_decide (Some s0 = state)) eqn:Hb.
    + apply bool_decide_eq_true_1 in Hb. intros [= <-].
      split; [lia|]. rewrite Nat.sub_diag. exists f0.
      split; [reflexivity|]. rewrite Hs0. split; [eauto|].
      split; [assumption|]. intros j g Hj. lia.
    + apply bool_decide_eq_false_1 in Hb. intros Hscan.
      destruct (IH (S k) Hscan) as (Hle & f & Hf & Hsome & Heq & Hbefore).
      split; [lia|]. exists f.
      replace (i - k) with (S (i - S k)) by lia.
      split; [assumption|]. split; [assumption|]. split; [assumption|].
      intros [|j] g Hj Hg; cbn in Hg.
      * injection Hg as <-. rewrite Hs0. split; [eauto|assumption].
      * apply (Hbefore j g); [lia|assumption].
Qed.

Lemma awaiting_by_scan st i f :
  BaseForm.scan (Form._fields (cls st)) 0 (FSMContext.state (fsm st))
  = Ok (Some i) ->
  Form._fields (cls st) !! i = Some f ->
  awaiting st i f.
Proof.
  intros Hscan Hf.
  destruct (scan_sound _ _ _ _ Hscan) as (_ & f' & Hf' & Hsome & Heq & Hbefore).
  rewrite Nat.sub_0_r in Hf', Hbefore.
  rewrite Hf in Hf'. injection Hf' as <-.
  split; [assumption|]. split; [assumption|]. split; [assumption|].
  exact Hbefore.
Qed.

(** Once every field has its state and the states are pairwise distinct,
    as they are after compilation of a class with distinct state labels, a
    conversation awaits the field whose state is stored. *)
Lemma awaiting_of_distinct st (i : nat) f :
  Forall (fun g => is_Some (BaseField._state g)) (Form._fields (cls st)) ->
  NoDup (BaseField._state <$> Form._fields (cls st)) ->
  Form._fields (cls st) !! i = Some f ->
  BaseField._state f = FSMContext.state (fsm st) ->
  awaiting st i f.
Proof.
  intros Hall Hnd Hf Heq. rewrite Forall_forall in Hall.
  split; [assumption|]. split.
  { apply Hall. apply list_elem_of_lookup. eauto. }
  split; [assumption|].
  intros j g Hj Hg. split.
  { apply Hall. apply list_elem_of_lookup. eauto. }
  rewrite <- Heq. intros Hsame.
  assert ((BaseField._state <$> Form._fields (cls st)) !! j
          = Some (BaseField._state g)) as H1
    by (now rewrite list_lookup_fmap, Hg).
  assert ((BaseField._state <$> Form._fields (cls st)) !! i
          = Some (BaseField._state g)) as H2
    by (now rewrite list_lookup_fmap, Hf, Hsame).
  pose proof (NoDup_lookup _ _ _ _ Hnd H1 H2). lia.
Qed.


(** ** The Signup form, step by step *)

Lemma signup_class :
  FormMeta.__new__ "Signup" Signup.namespace = Ok Signup.form.
Proof. reflexivity. Qed.

Lemma signup_named_attached : attached (cls Signup.named).
Proof. unfold attached. vm_compute. repeat constructor. Qed.

Lemma signup_named_intact : methods_intact (cls Signup.named).
Proof.
  unfold methods_intact. apply (bool_decide_unpack _). vm_compute. exact I.
Qed.

Lemma signup_fresh_intact : methods_intact (cls Signup.fresh).
Proof.
  unfold methods_intact. apply (bool_decide_unpack _). vm_compute. exact I.
Qed.

Lemma signup_bad_arguments_intact :
  methods_intact (cls signup_bad_arguments).
Proof.
  unfold methods_intact. apply (bool_decide_unpack _). vm_compute. exact I.
Qed.

Lemma signup_bad_arguments_attached : attached (cls signup_bad_arguments).
Proof. unfold attached. vm_compute. repeat constructor. Qed.

Lemma signup_bad_arguments_awaiting :
  awaiting signup_bad_arguments 1 SignupRun.age_awaited.
Proof. apply awaiting_by_scan; vm_compute; reflexivity. Qed.

Lemma signup_named_awaiting : awaiting Signup.named 1 SignupRun.age_awaited.
Proof. apply awaiting_by_scan; vm_compute; reflexivity. Qed.


Lemma signup_scenario :
  log (run Signup.c
         [Start (Some Signup.on_done) PyNone; Input "Alice"; Input "abc";
          Input "30"] Signup.fresh)
  = [EvRegister ["SignupStatesGroup:waiting_name";
                 "SignupStatesGroup:waiting_age"];
     EvSetState "SignupStatesGroup:waiting_name";
     EvSendMessage 42 "Your name?" (Some ReplyKeyboardRemove);
     EvGetState; EvValidate 1 "Alice";
     EvUpdateData "Signup:name" "Alice";
     EvSetState "SignupStatesGroup:waiting_age";
     EvSendMessage 42 "Your age?" (Some ReplyKeyboardRemove);
     EvGetState; EvValidate 1 "abc"; EvValidate 2 "abc";
     EvSendMessage 42 "Digits only" None;
     EvGetState; EvValidate 1 "30"; EvValidate 2 "30"; EvValidate 3 "30";
     EvUpdateData "Signup:age" "30";
     EvResetState false;
     EvCallback 7 []].
Proof. vm_compute. reflexivity. Qed.

Lemma validate_witness :
  ∃ b : bool,
    BaseField_validate Signup.age_field "abc" Signup.fresh
    = (Ok b, logged Signup.fresh [EvValidate 1 "abc"; EvValidate 2 "abc"])
    ∧ b = false.
Proof.
  destruct (validate_all_in_order_short_circuit
              Signup.age_field "abc" Signup.fresh)
    as (b & Hrun & _ & _ & Hfirst).
  exists b.
  destruct (Hfirst [Signup.nonempty] Signup.numeric [Signup.short])
    as [Hb Hinv].
  - reflexivity.
  - intros u Hu. apply list_elem_of_singleton in Hu. subst u. reflexivity.
  - reflexivity.
  - split; [|exact Hb]. rewrite Hrun, Hinv. reflexivity.
Defined.

Lemma last_field_witness :
  let r := BaseForm._handle_input "30" Signup.named in
  let r' := BaseForm._handle_input "30" signup_bad_arguments in
  r.1 = Ok tt
  ∧ FSMContext.state (fsm r.2) = None
  ∧ FSMContext.data (fsm r.2)
    = <["Signup:age" := "30"]> (FSMContext.data (fsm Signup.named))
  ∧ count is_callback (drop (length (log Signup.named)) (log r.2)) = 1
  ∧ r'.1 = Raise TypeError
  ∧ FSMContext.state (fsm r'.2) = None
  ∧ count is_callback (drop (length (log signup_bad_arguments)) (log r'.2))
    = 0.
Proof.
  destruct (last_field_success_finishes
              Signup.named 1 SignupRun.age_awaited "30"
              signup_named_intact signup_named_attached signup_named_awaiting
              ltac:(vm_compute; reflexivity) ltac:(vm_compute; reflexivity))
    as (Hstate & Hdata & _ & _ & Hcb & _).
  destruct (Hcb Signup.on_done [] ltac:(vm_compute; reflexivity)
              ltac:(vm_compute; reflexivity)) as (Hr & _ & Hcount).
  destruct (last_field_success_finishes
              signup_bad_arguments 1 SignupRun.age_awaited "30"
              signup_bad_arguments_intact signup_bad_arguments_attached
              signup_bad_arguments_awaiting
              ltac:(vm_compute; reflexivity) ltac:(vm_compute; reflexivity))
    as (Hstate' & _ & _ & _ & _ & Hbad & _).
  destruct (Hbad Signup.on_done TypeError ltac:(vm_compute; reflexivity)
              ltac:(vm_compute; reflexivity)) as (Hr' & _ & _ & Hcount').
  cbv zeta. split; [exact Hr|]. split; [exact Hstate|].
  split; [exact Hdata|]. split; [exact Hcount|].
  split; [exact Hr'|]. split; [exact Hstate'|exact Hcount'].
Defined.


Lemma signup_fresh_distinct : distinct_objects (cls Signup.fresh).
Proof.
  unfold distinct_objects. apply (bool_decide_unpack _). vm_compute. exact I.
Qed.

Lemma state_compilation_witness :
  let st1 := (FormMeta.state Signup.c Signup.fresh).2 in
  let cached := {| StatesGroup.group_name := "Elsewhere";
                   StatesGroup.states_names := ["Elsewhere:waiting_x"] |} in
  let st := {| cls := Form.set_state Signup.form cached;
               fsm := fsm Signup.fresh;
               dispatcher := dispatcher Signup.fresh;
               log := [] |} in
  FormMeta.state Signup.c st1
  = (Ok {| StatesGroup.group_name := "SignupStatesGroup";
           StatesGroup.states_names :=
             ["SignupStatesGroup:waiting_name";
              "SignupStatesGroup:waiting_age"] |}, st1)
  ∧ Form._fields (cls st1) !! 1 = Some SignupRun.age_awaited
  ∧ FormMeta.state Signup.c st = (Ok cached, st).
Proof.
  assert (NoDup (BaseField.state_label <$> Form._fields (cls Signup.fresh)))
    as Hnd.
  { apply (bool_decide_unpack _). vm_compute. exact I. }
  destruct (state_compilation_memoized Signup.c Signup.fresh)
    as (_ & Hfirst).
  destruct (Hfirst eq_refl)
    as (_ & Hmemo & _ & _ & _ & _ & _ & Hdistinct & _).
  destruct (Hdistinct signup_fresh_distinct Hnd) as (_ & Hassign).
  cbv zeta. split; [exact Hmemo|]. split.
  - destruct (Hassign 1 _ eq_refl) as (s & _ & -> & ->). reflexivity.
  - exact (proj1 (state_compilation_memoized Signup.c
                    {| cls := Form.set_state Signup.form
                                {| StatesGroup.group_name := "Elsewhere";
                                   StatesGroup.states_names :=
                                     ["Elsewhere:waiting_x"] |};
                       fsm := fsm Signup.fresh;
                       dispatcher := dispatcher Signup.fresh;
                       log := [] |}) _ eq_refl).
Defined.


Lemma empty_form_witness :
  ∃ form,
    FormMeta.__new__ "Empty" Signup.empty_namespace = Ok form
    ∧ (BaseForm.start Signup.c (Some Signup.on_done) PyNone
         {| cls := form; fsm := fsm Signup.fresh;
            dispatcher := dispatcher Signup.fresh; log := [] |}).1
      = Raise IndexError.
Proof.
  assert (no_fields Signup.empty_namespace) as Hns.
  { repeat constructor. eexists. reflexivity. }
  destruct (empty_form_fails_at_start Signup.c "Empty" Signup.empty_namespace Hns)
    as (form & Hnew & _ & Hrun).
  exists form. split; [exact Hnew|].
  destruct (Hrun {| cls := form; fsm := fsm Signup.fresh;
                    dispatcher := dispatcher Signup.fresh; log := [] |} eq_refl)
    as [_ Hstart].
  exact (proj1 (Hstart (Some Signup.on_done) PyNone)).
Defined.


Lemma get_data_witness :
  ∃ m : gmap string (option string),
    (BaseForm.get_data Signup.named).1 = Ok m
    ∧ dom m = {["Signup:name"; "Signup:age"]}
    ∧ m !! "Signup:name" = Some (Some "Alice")
    ∧ m !! "Signup:age" = Some None.
Proof.
  destruct (get_data_snapshot Signup.named signup_named_attached)
    as (m & Hrun & Hdom & _ & Hsome & Hnone & _).
  assert (data_keys (cls Signup.named) = ["Signup:name"; "Signup:age"])
    as Hkeys by (vm_compute; reflexivity).
  rewrite Hkeys in Hdom.
  exists m. rewrite Hrun. split; [reflexivity|].
  split.
  { rewrite Hdom. cbn. now rewrite (right_id_L ∅ (∪)). }
  split.
  - apply Hsome. rewrite Hkeys. split; [repeat constructor|].
    vm_compute. reflexivity.
  - apply Hnone. rewrite Hkeys. split; [repeat constructor|].
    vm_compute. reflexivity.
Defined.

(** ** Where the code departs from the specification *)

(** C2, counterexample: the age is the last field of the Signup form and
    "30" passes its validators, yet the callback stored by [start] is
    called without any argument, not with the collected data. *)
Lemma callback_gets_no_data_counterexample :
  let r := BaseForm._handle_input "30" Signup.named in
  awaiting Signup.named 1 SignupRun.age_awaited
  ∧ S 1 = length (Form._fields (cls Signup.named))
  ∧ accepts SignupRun.age_awaited "30" = true
  ∧ List.filter is_callback (log r.2) = [EvCallback Signup.on_done []]
  ∧ ∀ m : gmap string (option string),
      List.filter is_callback (log r.2)
      ≠ [EvCallback Signup.on_done [as_dict m]].
Proof.
  cbv zeta. split; [exact signup_named_awaiting|].
  split; [vm_compute; reflexivity|]. split; [vm_compute; reflexivity|].
  assert (List.filter is_callback
            (log (BaseForm._handle_input "30" Signup.named).2)
          = [EvCallback Signup.on_done []]) as -> by (vm_compute; reflexivity).
  split; [reflexivity|]. intros m H. discriminate H.
Qed.

(** C4, counterexample: the two fields of the Clash form are distinct
    objects that were named [code] by other classes, so both have the
    state label [waiting_code].  The group compiled for the two fields has
    a single state, and the second field is assigned none: reading its
    state raises.  In the Alias form one object is bound to two names; the
    group compiled for its three fields has two states, and the field at
    the first position ends with the second state. *)
Lemma state_compilation_counterexample :
  let r := FormMeta.state Signup.c Clash.fresh in
  let r' := FormMeta.state Signup.c Alias.fresh in
  Form._state (cls Clash.fresh) = None
  ∧ distinct_objects (cls Clash.fresh)
  ∧ length (Form._fields (cls Clash.fresh)) = 2
  ∧ r.1 = Ok {| StatesGroup.group_name := "ClashStatesGroup";
                StatesGroup.states_names :=
                  ["ClashStatesGroup:waiting_code"] |}
  ∧ Form._fields (cls r.2) !! 1 = Some Clash.second_left_out
  ∧ BaseField.state Clash.second_left_out = Raise AttributeError
  ∧ Form._state (cls Alias.fresh) = None
  ∧ length (Form._fields (cls Alias.fresh)) = 3
  ∧ r'.1 = Ok {| StatesGroup.group_name := "AliasStatesGroup";
                 StatesGroup.states_names :=
                   ["AliasStatesGroup:waiting_a";
                    "AliasStatesGroup:waiting_b"] |}
  ∧ BaseField._state <$> Form._fields (cls r'.2)
    = [Some "AliasStatesGroup:waiting_b"; Some "AliasStatesGroup:waiting_b";
       None].
Proof.
  cbv zeta. split; [reflexivity|]. split.
  { unfold distinct_objects. apply (bool_decide_unpack _). vm_compute.
    exact I. }
  split; [reflexivity|]. split; [vm_compute; reflexivity|].
  split; [vm_compute; reflexivity|]. split; [reflexivity|].
  split; [reflexivity|]. split; [reflexivity|].
  split; vm_compute; reflexivity.
Qed.


(** C6, counterexample: a class body without fields is accepted by the
    metaclass; no error is raised when the class is defined, nor when its
    states are compiled. *)
Lemma empty_form_counterexample :
  no_fields Signup.empty_namespace
  ∧ (∃ form,
       FormMeta.__new__ "Empty" Signup.empty_namespace = Ok form
       ∧ Form._fields form = []
       ∧ (FormMeta.state Signup.c
            {| cls := form; fsm := fsm Signup.fresh;
               dispatcher := dispatcher Signup.fresh; log := [] |}).1
         = Ok {| StatesGroup.group_name := "EmptyStatesGroup";
                 StatesGroup.states_names := [] |})
  ∧ ∀ e, FormMeta.__new__ "Empty" Signup.empty_namespace ≠ Raise e.
Proof.
  split.
  { repeat constructor. eexists. reflexivity. }
  split.
  { eexists. split; [reflexivity|]. split; reflexivity. }
  intros e H. discriminate H.
Qed.

(** * Further properties of the module *)

(** ** Prompting a field *)

Lemma promotion_run g s st :
  BaseField._state g = Some s ->
  BaseForm._start_field_promotion g st = (Ok tt, after_promotion st g s).
Proof.
  intros Hs. unfold BaseForm._start_field_promotion, BaseField.state.
  rewrite Hs. run_m. unfold after_promotion, prompt. cbn.
  now rewrite <- app_assoc.
Qed.

Lemma promotion_unassigned g st :
  BaseField._state g = None ->
  BaseForm._start_field_promotion g st = (Raise AttributeError, st).
Proof.
  intros Hs. unfold BaseForm._start_field_promotion, BaseField.state.
  now rewrite Hs.
Qed.

Lemma tuple_get_run st i f :
  Form._fields (cls st) !! i = Some f -> BaseForm.tuple_get i st = (Ok f, st).
Proof.
  intros H. unfold BaseForm.tuple_get, mbind, M_bind, get_cls. now rewrite H.
Qed.

Lemma handle_input_next st (i : nat) f g text k :
  awaiting st i f ->
  accepts f text = true ->
  BaseField.data_key f = Ok k ->
  Form._fields (cls st) !! S i = Some g ->
  BaseForm._handle_input text st
  = BaseForm._start_field_promotion g (after_store st f k text).
Proof.
  intros Haw Hacc Hk Hg. unfold BaseForm._handle_input.
  rewrite (bind_ok _ _ _ _ _ (get_current_field_awaiting st i f Haw)).
  destruct Haw as (Hf & _).
  rewrite (bind_ok _ _ _ _ _ (the_field_some (logged st [EvGetState]) i f Hf)).
  unfold BaseField_validate.
  rewrite (bind_ok _ _ _ _ _ (validate_loop_run _ text _)).
  fold (accepts f text). rewrite Hacc. rewrite (invoked_all _ _ Hacc).
  rewrite logged_logged. rewrite Hk.
  rewrite (bind_ok (lift (Ok k)) _ _ k _ eq_refl).
  rewrite (bind_ok _ _ _ _ _ (update_data_run k text _)).
  pose proof (lookup_lt_Some _ _ _ Hg) as Hlt.
  match goal with
  | |- context [(BaseForm.tuple_index (Some i) ≫= ?k) ?s] =>
      rewrite (bind_ok _ k s i s
                 (tuple_index_run s i ltac:(unfold logged; cbn; lia)))
  end.
  cbv zeta.
  rewrite (bind_ok get_cls _ _ _ _ eq_refl). cbn [cls logged].
  rewrite bool_decide_eq_true_2 by lia.
  replace (i + 1) with (S i) by lia.
  match goal with
  | |- context [(BaseForm.tuple_get (S i) ≫= ?k) ?s] =>
      rewrite (bind_ok _ k s g s (tuple_get_run s (S i) g Hg))
  end.
  unfold after_store, logged. cbn. now rewrite <- !app_assoc.
Qed.



(** ** start *)

Lemma start_callback_step callback callback_args st :
  (match callback with
   | Some cb =>
       cls ← get_cls; put_cls (Form.set_callback cls cb callback_args)
   | None => mret tt
   end : M unit) st
  = (Ok tt, with_cls st (store_callback callback callback_args (cls st))).
Proof. destruct callback; [reflexivity|]. destruct st; reflexivity. Qed.

Lemma start_run c callback callback_args st :
  BaseForm.start c callback callback_args st
  = (BaseForm.tuple_get 0
       ≫= fun first => BaseForm._start_field_promotion first)
      (after_start_setup c callback callback_args st).
Proof.
  unfold BaseForm.start, after_start_setup.
  rewrite (bind_ok _ _ _ _ _ (start_callback_step callback callback_args st)).
  now rewrite (bind_ok _ _ _ _ _ (register_handler_run c _)).
Qed.

(** X1: take a class whose body binds none of the method names of
    [BaseForm], whose fields are pairwise distinct objects, that has at
    least one field and has been neither compiled nor registered.  The
    first [start] on it returns normally.  It registers the handler once,
    for the states of the compiled group, sets the conversation's state to
    the first field's state [<name><suffix>:waiting_<key>], the first
    state of the group, keeps the stored data and sends exactly one
    message, the prompt of the first field (translated by the middleware
    the registration installed). *)
Theorem start_fresh_prompts_first_field
    (c : const.t) (callback : option Callback) (callback_args : pyval)
    (st : St) (f0 : BaseField.t) (rest : list BaseField.t) :
  methods_intact (cls st) ->
  distinct_objects (cls st) ->
  Form._registered (cls st) = false ->
  Form._state (cls st) = None ->
  Form._fields (cls st) = f0 :: rest ->
  let r := BaseForm.start c callback callback_args st in
  let s0 := state_name c (cls st) f0 in
  r.1 = Ok tt
  ∧ fsm r.2 = {| FSMContext.state := Some s0;
                 FSMContext.data := FSMContext.data (fsm st) |}
  ∧ Form._registered (cls r.2) = true
  ∧ Form._fields (cls r.2) !! 0 = Some (BaseField.set_state f0 s0)
  ∧ log r.2
    = (log st
         ++ [EvRegister (StatesGroup.states_names (compile_group c (cls st)));
             EvSetState s0;
             EvSendMessage (Dispatcher.chat_id (dispatcher st))
               (BaseForm.translate (cls r.2) (BaseField.label f0))
               (Some (BaseField._reply_keyboard f0))])%list
  ∧ head (StatesGroup.states_names (compile_group c (cls st))) = Some s0.
Proof.
  intros _ Hobj Hreg Hstate Hfields. cbv zeta. rewrite start_run.
  unfold after_start_setup, after_register. cbn [with_cls cls].
  assert (Form._registered (store_callback callback callback_args (cls st))
          = false) as -> by (destruct callback; assumption).
  assert (compiled c (store_callback callback callback_args (cls st))
          = Form.set_fields
              (Form.set_state (store_callback callback callback_args (cls st))
                 (compile_group c (cls st)))
              (BaseField.set_state f0 (state_name c (cls st) f0)
                 :: zip_states rest
                      (tail (StatesGroup.states_names
                               (compile_group c (cls st))))))
    as Hcompiled.
  { unfold compiled.
    assert (Form._state (store_callback callback callback_args (cls st))
            = None) as -> by (destruct callback; assumption).
    assert (compile_group c (store_callback callback callback_args (cls st))
            = compile_group c (cls st)) as -> by (destruct callback; reflexivity).
    assert (Form._fields (store_callback callback callback_args (cls st))
            = f0 :: rest) as -> by (destruct callback; assumption).
    rewrite assign_states_distinct
      by (rewrite <- Hfields; exact Hobj).
    unfold compile_group, StatesGroup.create. rewrite Hfields. reflexivity. }
  assert (state_group c (store_callback callback callback_args (cls st))
          = compile_group c (cls st)) as Hgroup.
  { unfold state_group.
    assert (Form._state (store_callback callback callback_args (cls st))
            = None) as -> by (destruct callback; assumption).
    destruct callback; reflexivity. }
  rewrite Hcompiled, Hgroup.
  match goal with
  | |- context [(BaseForm.tuple_get 0 ≫= ?k) ?s] =>
      rewrite (bind_ok _ k s (BaseField.set_state f0 (state_name c (cls st) f0)) s)
        by (apply tuple_get_run; cbn; now rewrite install_i18n_fields)
  end.
  rewrite (promotion_run (BaseField.set_state f0 (state_name c (cls st) f0))
             (state_name c (cls st) f0) _ eq_refl).
  unfold after_promotion, prompt.
  cbn [fst snd cls fsm log dispatcher Form._registered Form.set_registered
         Form._fields].
  split; [reflexivity|]. split; [reflexivity|]. split; [reflexivity|].
  split; [now rewrite install_i18n_fields|].
  split; [now rewrite <- app_assoc|].
  unfold compile_group, StatesGroup.create. now rewrite Hfields.
Qed.



(** ** What the methods do to the stored data *)

Lemma data_view_emit e : preserves data_view (emit e).
Proof. intros st. reflexivity. Qed.

Lemma data_view_put_cls c : preserves data_view (put_cls c).
Proof. intros st. reflexivity. Qed.

Lemma data_view_get_state : preserves data_view CurrentState.get_state.
Proof. intros st. reflexivity. Qed.

Lemma data_view_set_state s : preserves data_view (CurrentState.set_state s).
Proof. intros st. reflexivity. Qed.

Lemma data_view_reset_state :
  preserves data_view (CurrentState.reset_state false).
Proof. intros st. reflexivity. Qed.

Lemma data_view_proxy : preserves data_view CurrentState.proxy.
Proof. intros st. reflexivity. Qed.

Create HintDb pres_data discriminated.

#[local] Hint Resolve preserves_ret preserves_raise preserves_lift
  preserves_get_cls preserves_get_fsm preserves_get_dispatcher
  data_view_emit data_view_put_cls data_view_get_state data_view_set_state
  data_view_reset_state data_view_proxy : pres_data.

(** Splits a method into its steps for the view of the stored data. *)
Ltac pres_data :=
  repeat lazymatch goal with
    | |- preserves _ (_ ≫= _) => apply preserves_bind; [|intros ?]
    | |- preserves _ (let _ := _ in _) => cbv zeta
    | |- preserves _ (match ?x with _ => _ end) => destruct x
    | |- preserves _ _ => solve [auto with pres_data]
    end.

Lemma data_view_send_message text markup :
  preserves data_view (send_message text markup).
Proof. unfold send_message. pres_data. Qed.

Lemma data_view_tuple_get i : preserves data_view (BaseForm.tuple_get i).
Proof. unfold BaseForm.tuple_get. pres_data. Qed.

Lemma data_view_tuple_index r : preserves data_view (BaseForm.tuple_index r).
Proof. unfold BaseForm.tuple_index. pres_data. Qed.

#[local] Hint Resolve data_view_send_message data_view_tuple_get
  data_view_tuple_index : pres_data.

Lemma data_view_promotion f :
  preserves data_view (BaseForm._start_field_promotion f).
Proof. unfold BaseForm._start_field_promotion. pres_data. Qed.

Lemma data_view_finish : preserves data_view BaseForm.finish.
Proof. unfold BaseForm.finish. pres_data. Qed.

Lemma data_view_state c : preserves data_view (FormMeta.state c).
Proof. unfold FormMeta.state. pres_data. Qed.

#[local] Hint Resolve data_view_promotion data_view_finish data_view_state
  : pres_data.

Lemma data_view_cls_finish : preserves data_view BaseForm.cls_finish.
Proof. unfold BaseForm.cls_finish. pres_data. Qed.

#[local] Hint Resolve data_view_cls_finish : pres_data.

Lemma data_view_register_handler c :
  preserves data_view (BaseForm._register_handler c).
Proof. unfold BaseForm._register_handler. pres_data. Qed.

#[local] Hint Resolve data_view_register_handler : pres_data.

Lemma data_view_start c callback callback_args :
  preserves data_view (BaseForm.start c callback callback_args).
Proof. unfold BaseForm.start. pres_data. Qed.

Lemma data_view_get_data : preserves data_view BaseForm.get_data.
Proof. unfold BaseForm.get_data. pres_data. Qed.

Lemma handle_input_data text st :
  attached (cls st) ->
  data_view (BaseForm._handle_input text st).2 = data_view st
  ∨ ∃ f, f ∈ Form._fields (cls st)
         ∧ accepts f text = true
         ∧ data_view (BaseForm._handle_input text st).2
           = <[Form.name (cls st) ++ ":" ++ BaseField.key_str f := text]>
               (data_view st).
Proof.
  intros Hatt. unfold BaseForm._handle_input.
  pose proof (get_current_field_run st) as Hg.
  destruct (BaseForm.scan (Form._fields (cls st)) 0
              (FSMContext.state (fsm st))) as [[i|]|e].
  - rewrite (bind_ok _ _ _ _ _ Hg).
    destruct (Form._fields (cls st) !! i) as [f|] eqn:Hf.
    + rewrite (bind_ok _ _ _ _ _
                 (the_field_some (logged st [EvGetState]) i f Hf)).
      unfold BaseField_validate.
      rewrite (bind_ok _ _ _ _ _ (validate_loop_run _ text _)).
      fold (accepts f text). destruct (accepts f text) eqn:Hacc.
      * right. exists f.
        assert (f ∈ Form._fields (cls st)) as Hin
          by (apply list_elem_of_lookup; eauto).
        split; [assumption|]. split; [exact Hacc|].
        rewrite (attached_data_key (cls st) f Hatt Hin).
        match goal with
        | |- context [(lift (Ok ?k) ≫= ?kk) ?s] =>
            rewrite (bind_ok (lift (Ok k)) kk s k s eq_refl)
        end.
        rewrite (bind_ok _ _ _ _ _ (update_data_run _ text _)).
        match goal with
        | |- data_view (?m ?s).2 = _ =>
            assert (preserves data_view m) as Hrest by pres_data;
            rewrite (Hrest s)
        end.
        reflexivity.
      * left. run_m. reflexivity.
    + left. unfold BaseForm.the_field.
      rewrite (bind_raise _ _ (logged st [EvGetState]) AttributeError
                 (logged st [EvGetState])); [reflexivity|].
      unfold mbind, M_bind, get_cls. cbn [cls logged]. now rewrite Hf.
  - left. now rewrite (bind_ok _ _ _ _ _ Hg).
  - left. now rewrite (bind_raise _ _ _ _ _ Hg).
Qed.

Lemma assign_states_key_str fields names :
  BaseField.key_str <$> FormMeta.assign_states fields names
  = BaseField.key_str <$> fields.
Proof. now apply assign_states_keeps. Qed.

Lemma data_keys_eq cls cls' :
  Form.name cls' = Form.name cls ->
  BaseField.key_str <$> Form._fields cls'
  = BaseField.key_str <$> Form._fields cls ->
  data_keys cls' = data_keys cls.
Proof.
  intros Hname Hkeys. unfold data_keys. rewrite Hname.
  assert (∀ l : list BaseField.t,
            (fun f => Form.name cls ++ ":" ++ BaseField.key_str f) <$> l
            = (fun k => Form.name cls ++ ":" ++ k)
                <$> (BaseField.key_str <$> l)) as Hsplit
    by (intros l; rewrite <- list_fmap_compose; reflexivity).
  now rewrite !Hsplit, Hkeys.
Qed.

Lemma compiled_data_keys c cls : data_keys (compiled c cls) = data_keys cls.
Proof.
  apply data_keys_eq; unfold compiled; destruct (Form._state cls);
    try reflexivity.
  cbn. apply assign_states_key_str.
Qed.

Lemma exec_data_keys c op st :
  data_keys (cls (exec c op st)) = data_keys (cls st).
Proof.
  destruct op as [cb args|text| | |]; cbn [exec].
  - pose proof (start_setup c cb args st) as H.
    unfold class_view in H. apply pair_equal_spec in H as [-> _].
    unfold after_start_setup, after_register. cbn [with_cls cls].
    assert (data_keys (store_callback cb args (cls st)) = data_keys (cls st))
      as Hcb by (destruct cb; reflexivity).
    destruct (Form._registered (store_callback cb args (cls st)));
      [assumption|].
    cbn [cls]. etransitivity; [|exact Hcb].
    etransitivity; [|apply (compiled_data_keys c)].
    apply data_keys_eq; cbn.
    + apply install_i18n_name.
    + now rewrite install_i18n_fields.
  - pose proof (class_view_handle_input text st) as H.
    unfold class_view in H. now apply pair_equal_spec in H as [-> _].
  - pose proof (class_view_finish st) as H.
    unfold class_view in H. now apply pair_equal_spec in H as [-> _].
  - pose proof (class_view_get_data st) as H.
    unfold class_view in H. now apply pair_equal_spec in H as [-> _].
  - rewrite state_run. cbn [snd with_cls cls]. apply compiled_data_keys.
Qed.

Lemma exec_data c op st :
  attached (cls st) ->
  data_view (exec c op st) = data_view st
  ∨ ∃ f text,
      op = Input text
      ∧ f ∈ Form._fields (cls st)
      ∧ accepts f text = true
      ∧ data_view (exec c op st)
        = <[Form.name (cls st) ++ ":" ++ BaseField.key_str f := text]>
            (data_view st).
Proof.
  intros Hatt. destruct op as [cb args|text| | |]; cbn [exec].
  - left. apply data_view_start.
  - destruct (handle_input_data text st Hatt) as [H|(f & Hf & Hacc & H)].
    + now left.
    + right. exists f, text. auto.
  - left. apply data_view_finish.
  - left. apply data_view_get_data.
  - left. apply data_view_state.
Qed.

(** X9: whatever is called on a form whose fields belong to it, and in
    whatever order, an entry of the conversation's data under a key that
    is not the data key of one of the form's fields is never written,
    changed or removed. *)
Theorem form_writes_only_its_keys
    (c : const.t) (ops : list call) (st : St) (k : string) :
  attached (cls st) ->
  k ∉ data_keys (cls st) ->
  FSMContext.data (fsm (run c ops st)) !! k = FSMContext.data (fsm st) !! k.
Proof.
  revert st. induction ops as [|op ops IH]; intros st Hatt Hk;
    cbn [run foldl]; [reflexivity|].
  fold (run c ops (exec c op st)).
  rewrite IH.
  - destruct (exec_data c op st Hatt) as [H|(f & text & _ & Hf & _ & H)];
      unfold data_view in H; rewrite H; [reflexivity|].
    apply lookup_insert_ne. intros <-. apply Hk.
    unfold data_keys. apply list_elem_of_fmap. eauto.
  - now apply exec_attached.
  - now rewrite exec_data_keys.
Qed.

(** X10: [start], [finish], [get_data] and reading [state] leave the
    conversation's data as it is, whether they return or raise: only the
    handling of an inbound value writes.  In particular starting a form
    again does not clear the answers of an earlier pass. *)
Theorem calls_other_than_input_keep_data
    (c : const.t) (op : call) (st : St) :
  (∀ text, op ≠ Input text) ->
  FSMContext.data (fsm (exec c op st)) = FSMContext.data (fsm st).
Proof.
  intros Hop. destruct op as [cb args|text| | |]; cbn [exec].
  - apply data_view_start.
  - now destruct (Hop text).
  - apply data_view_finish.
  - apply data_view_get_data.
  - apply data_view_state.
Qed.

(** ** Invalid answers *)



(** ** Which field is current *)

Lemma scan_none_iff fields k state :
  BaseForm.scan fields k state = Ok None
  ↔ Forall (fun g => is_Some (BaseField._state g)
                     ∧ BaseField._state g ≠ state) fields.
Proof.
  revert k. induction fields as [|g fields IH]; intros k; cbn.
  - split; [constructor|reflexivity].
  - unfold BaseField.state. destruct (BaseField._state g) as [s|] eqn:Hs.
    + destruct (bool_decide (Some s = state)) eqn:Hb.
      * apply bool_decide_eq_true_1 in Hb. split; [discriminate|].
        intros H. inversion H as [|? ? [_ Hne] _]; subst.
        rewrite Hs in Hne. now destruct Hne.
      * apply bool_decide_eq_false_1 in Hb. rewrite IH. split.
        -- intros H. constructor; [|assumption]. rewrite Hs.
           split; [eauto|assumption].
        -- intros H. now inversion H.
    + split; [discriminate|].
      intros H. inversion H as [|? ? [[s Hsome] _] _]; subst.
      rewrite Hs in Hsome. discriminate.
Qed.

Lemma scan_raise fields k state e :
  BaseForm.scan fields k state = Raise e ->
  e = AttributeError ∧ ∃ g, g ∈ fields ∧ BaseField._state g = None.
Proof.
  revert k. induction fields as [|g fields IH]; intros k; cbn.
  - discriminate.
  - unfold BaseField.state. destruct (BaseField._state g) as [s|] eqn:Hs.
    + destruct (bool_decide (Some s = state)); [discriminate|].
      intros H. destruct (IH _ H) as (-> & g' & Hg' & Hnone).
      split; [reflexivity|]. exists g'. split; [now constructor|assumption].
    + intros [= <-]. split; [reflexivity|]. exists g.
      split; [constructor|assumption].
Qed.

(** X6: [get_current_field] reads the stored state once and changes
    nothing.  It answers the field at position [i] exactly when that field
    is the first whose state is the stored one (all fields before it
    having other states); it answers [None] exactly when every field has a
    state and none is the stored one; and it can only raise
    [AttributeError], which needs a field without a state. *)
Theorem current_field_resolution (st : St) :
  let r := BaseForm.get_current_field st in
  r.2 = logged st [EvGetState]
  ∧ (∀ i : nat, r.1 = Ok (Some i) ↔ ∃ f, awaiting st i f)
  ∧ (r.1 = Ok None
     ↔ Forall (fun g => is_Some (BaseField._state g)
                        ∧ BaseField._state g ≠ FSMContext.state (fsm st))
              (Form._fields (cls st)))
  ∧ (∀ e, r.1 = Raise e ->
       e = AttributeError
       ∧ ∃ g, g ∈ Form._fields (cls st) ∧ BaseField._state g = None).
Proof.
  cbv zeta. rewrite get_current_field_run. cbn [fst snd].
  split; [reflexivity|]. split; [|split].
  - intros i. split.
    + intros Hscan.
      destruct (scan_sound _ _ _ _ Hscan) as (_ & f & Hf & _).
      rewrite Nat.sub_0_r in Hf. exists f. now apply awaiting_by_scan.
    + intros (f & Hf & Hsome & Heq & Hbefore).
      now rewrite (scan_found _ 0 _ i f Hf Hsome Heq Hbefore).
  - apply scan_none_iff.
  - intros e. apply scan_raise.
Qed.

(** ** The i18n middleware *)

Lemma install_i18n_last apps cls :
  Form._i18n (BaseForm.install_i18n apps cls)
  = match last (List.filter is_i18n apps) with
    | Some m => Some m
    | None => Form._i18n cls
    end.
Proof.
  revert cls. induction apps as [|m apps IH]; intros cls.
  - reflexivity.
  - cbn [BaseForm.install_i18n List.filter]. unfold is_i18n at 1.
    destruct (str_in "i18n" (Middleware.str m)).
    + rewrite IH. cbn [Form.set_i18n Form._i18n].
      destruct (List.filter is_i18n apps) as [|m' l]; [reflexivity|].
      rewrite last_cons_cons.
      destruct (last (m' :: l)) eqn:Hlast; [reflexivity|].
      now apply last_None in Hlast.
    + apply IH.
Qed.

(** X12: when the handler of a class is registered, the class takes as
    its translator the last of the dispatcher's middlewares whose [str]
    contains [i18n]; without such a middleware the translator is left as
    it was.  On a registered class [_register_handler] does nothing at
    all. *)
Theorem register_installs_last_i18n (c : const.t) (st : St) :
  let st' := (BaseForm._register_handler c st).2 in
  (Form._registered (cls st) = false ->
   Form._i18n (cls st')
   = match last (List.filter is_i18n (Dispatcher.applications (dispatcher st)))
     with
     | Some m => Some m
     | None => Form._i18n (cls st)
     end)
  ∧ (Form._registered (cls st) = true -> st' = st).
Proof.
  cbv zeta. rewrite register_handler_run. cbn [snd]. unfold after_register.
  split; intros ->; [|reflexivity].
  cbn [cls Form.set_registered Form._i18n]. rewrite install_i18n_last.
  unfold compiled. now destruct (Form._state (cls st)).
Qed.

(** ** Arguments that cannot be unpacked *)

(** X13: with a callback stored together with arguments that are truthy
    but cannot be unpacked ([True] or a non-zero integer), [finish] resets
    the state (keeping the data) and then raises [TypeError]; the callback
    is not called. *)
Theorem finish_unpack_failure (st : St) (cb : Callback) :
  Form._callback (cls st) = Some cb ->
  (Form._callback_args (cls st) = PyBool true
   ∨ ∃ z, z ≠ 0%Z ∧ Form._callback_args (cls st) = PyInt z) ->
  let r := BaseForm.finish st in
  r.1 = Raise TypeError
  ∧ FSMContext.state (fsm r.2) = None
  ∧ FSMContext.data (fsm r.2) = FSMContext.data (fsm st)
  ∧ log r.2 = (log st ++ [EvResetState false])%list.
Proof.
  intros Hcb Hargs. cbv zeta. rewrite finish_result, finish_state.
  unfold after_finish, completion. rewrite Hcb.
  assert (call_args (Form._callback_args (cls st)) = Raise TypeError) as ->.
  { destruct Hargs as [->|(z & Hz & ->)]; [reflexivity|].
    unfold call_args. cbn. now rewrite (proj2 (Z.eqb_neq z 0) Hz). }
  repeat split.
Qed.

Lemma concat_cons (p : string) (ps : list string) :
  String.concat "" (p :: ps) = p ++ String.concat "" ps.
Proof.
  destruct ps as [|q ps]; cbn [String.concat]; [|reflexivity].
  clear. induction p as [|a p IH]; [reflexivity|].
  change (String a p = String a (p ++ "")). now rewrite <- IH.
Qed.

(** The pieces of [code_points] are consecutive parts of the string. *)
Lemma code_points_concat s : String.concat "" (code_points s) = s.
Proof.
  induction s as [|a r IH]; [reflexivity|].
  cbn [code_points]. cbv zeta.
  destruct r as [|b r']; [reflexivity|].
  destruct (code_points (String b r')) as [|p ps] eqn:Hrest.
  - cbn in IH. discriminate IH.
  - rewrite concat_cons in IH. destruct (is_continuation b).
    + rewrite concat_cons.
      change (String a (p ++ String.concat "" ps) = String a (String b r')).
      now rewrite IH.
    + rewrite !concat_cons.
      change (String a (p ++ String.concat "" ps) = String a (String b r')).
      now rewrite IH.
Qed.

Lemma code_points_cons a r :
  code_points (String a r)
  = match r, code_points r with
    | String b _, p :: ps =>
        if is_continuation b then String a p :: ps
        else String a EmptyString :: code_points r
    | _, _ => String a EmptyString :: code_points r
    end.
Proof. destruct r; reflexivity. Qed.

(** There is one piece per byte that begins a code point. *)
Lemma code_points_length a r :
  length (code_points (String a r)) = S (lead_bytes r).
Proof.
  revert a. induction r as [|b r IH]; intros a; [reflexivity|].
  rewrite code_points_cons.
  pose proof (IH b) as Hb.
  destruct (code_points (String b r)) as [|p ps] eqn:Hrest;
    [discriminate Hb|].
  cbn [lead_bytes]. cbn [length] in Hb.
  destruct (is_continuation b); cbn [length]; lia.
Qed.

(** A piece is one byte followed by continuation bytes, and every piece
    after the first begins with a byte that is not a continuation. *)
Lemma code_points_shape s :
  Forall (fun p => ∃ a t, p = String a t ∧ continuation_only t = true)
         (code_points s)
  ∧ Forall (fun p => ∃ a t, p = String a t ∧ is_continuation a = false)
           (tail (code_points s)).
Proof.
  induction s as [|a r [IH1 IH2]]; [split; constructor|].
  rewrite code_points_cons.
  destruct r as [|b r'].
  { split; [|constructor]. constructor; [|constructor].
    exists a, "". split; reflexivity. }
  assert (∃ t, code_points (String b r')
               = String b t :: tail (code_points (String b r')))
    as [t Ht].
  { clear. rewrite code_points_cons. destruct r' as [|b' r''].
    - exists "". reflexivity.
    - destruct (code_points (String b' r'')) as [|p ps].
      + exists "". reflexivity.
      + destruct (is_continuation b'); eexists; reflexivity. }
  rewrite Ht in *. cbn [tail] in *.
  destruct (is_continuation b) eqn:Hb.
  - split; [|exact IH2].
    inversion IH1 as [|? ? (a0 & t0 & Heq & Hc) Hrest]; subst.
    injection Heq as <- <-.
    constructor; [|assumption].
    exists a, (String b t). split; [reflexivity|].
    cbn. now rewrite Hb, Hc.
  - split.
    + constructor; [|assumption]. exists a, "". split; reflexivity.
    + cbn [tail]. constructor; [|assumption]. exists b, t. split; [reflexivity|exact Hb].
Qed.

(** X14: how [finish] passes the stored arguments to a stored callback:
    falsy arguments ([None], [False], [0], an empty string, list or dict)
    give a call without arguments; a non-empty list is passed element by
    element; a non-empty string is passed character by character, a
    character being a whole code point and not a byte.  The pieces of the
    string are consecutive parts of it, each made of one byte and the
    continuation bytes that follow it, so that there is one argument per
    byte that begins a code point.  In each case the state is reset first
    and the callback is called once. *)
Theorem finish_callback_arguments (st : St) (cb : Callback) :
  Form._callback (cls st) = Some cb ->
  let new := drop (length (log st)) (log (BaseForm.finish st).2) in
  (truthy (Form._callback_args (cls st)) = false ->
   new = [EvResetState false; EvCallback cb []])
  ∧ (∀ l, l ≠ [] -> Form._callback_args (cls st) = PyList l ->
       new = [EvResetState false; EvCallback cb l])
  ∧ (∀ s, s ≠ "" -> Form._callback_args (cls st) = PyStr s ->
       new = [EvResetState false; EvCallback cb (PyStr <$> code_points s)]
       ∧ String.concat "" (code_points s) = s
       ∧ Forall (fun p => ∃ a t, p = String a t ∧ continuation_only t = true)
                (code_points s)
       ∧ Forall (fun p => ∃ a t, p = String a t ∧ is_continuation a = false)
                (tail (code_points s))
       ∧ ∀ a r, s = String a r ->
           length (code_points s) = S (lead_bytes r)).
Proof.
  intros Hcb. cbv zeta. rewrite finish_state. unfold after_finish.
  cbn [log]. rewrite drop_app_length. unfold completion, call_args.
  rewrite Hcb. split; [|split].
  - intros ->. reflexivity.
  - intros l Hl ->. destruct l; [contradiction|reflexivity].
  - intros s Hs ->. cbn [truthy unpack].
    rewrite bool_decide_eq_false_2 by assumption. cbn [negb].
    split; [reflexivity|].
    split; [apply code_points_concat|].
    split; [apply code_points_shape|].
    split; [apply code_points_shape|].
    intros a r ->. apply code_points_length.
Qed.

(** ** Reading the data back *)

Lemma get_data_result st :
  (BaseForm.get_data st).1
  = BaseForm.comprehension (FSMContext.data (fsm st)) (Form._fields (cls st)) ∅.
Proof. reflexivity. Qed.

(** X15: [finish] does not change what [get_data] answers: the mapping
    read after [finish] (for instance by the callback) is the mapping that
    would have been read just before it. *)
Theorem data_readable_after_finish (st : St) :
  (BaseForm.get_data (BaseForm.finish st).2).1 = (BaseForm.get_data st).1.
Proof.
  rewrite !get_data_result, finish_state. reflexivity.
Qed.

(** ** The compiled class *)

Lemma exec_compiled c op st g :
  Form._state (cls st) = Some g ->
  Form._state (cls (exec c op st)) = Some g
  ∧ Form._fields (cls (exec c op st)) = Form._fields (cls st)
  ∧ Form.name (cls (exec c op st)) = Form.name (cls st).
Proof.
  intros Hg. destruct op as [cb args|text| | |]; cbn [exec].
  - pose proof (start_setup c cb args st) as H.
    unfold class_view in H. apply pair_equal_spec in H as [-> _].
    unfold after_start_setup, after_register. cbn [with_cls cls].
    assert (Form._state (store_callback cb args (cls st)) = Some g) as Hcb
      by (destruct cb; assumption).
    destruct (Form._registered (store_callback cb args (cls st))).
    + cbn [cls]. destruct cb; repeat split; assumption.
    + cbn [cls]. unfold compiled. rewrite Hcb.
      cbn [Form.set_registered Form._state Form._fields Form.name].
      rewrite install_i18n_fields, install_i18n_name.
      assert (∀ apps cls0, Form._state (BaseForm.install_i18n apps cls0)
                           = Form._state cls0) as Hst.
      { intros apps. induction apps as [|m apps IH]; intros cls0; cbn;
          [reflexivity|].
        destruct (str_in "i18n" (Middleware.str m)); now rewrite IH. }
      rewrite Hst. destruct cb; repeat split; assumption.
  - pose proof (class_view_handle_input text st) as H.
    unfold class_view in H. apply pair_equal_spec in H as [-> _]. auto.
  - pose proof (class_view_finish st) as H.
    unfold class_view in H. apply pair_equal_spec in H as [-> _]. auto.
  - pose proof (class_view_get_data st) as H.
    unfold class_view in H. apply pair_equal_spec in H as [-> _]. auto.
  - rewrite state_run. cbn [snd with_cls cls]. unfold compiled.
    rewrite Hg. auto.
Qed.

(** X16: once a class is compiled, no sequence of calls on the form
    changes its states group, its name or its fields: the states of the
    fields are assigned at most once. *)
Theorem compiled_class_is_stable
    (c : const.t) (ops : list call) (st : St) (g : StatesGroup.t) :
  Form._state (cls st) = Some g ->
  Form._state (cls (run c ops st)) = Some g
  ∧ Form._fields (cls (run c ops st)) = Form._fields (cls st)
  ∧ Form.name (cls (run c ops st)) = Form.name (cls st).
Proof.
  revert st. induction ops as [|op ops IH]; intros st Hg; cbn [run foldl].
  - auto.
  - fold (run c ops (exec c op st)).
    destruct (exec_compiled c op st g Hg) as (H1 & H2 & H3).
    destruct (IH (exec c op st) H1) as (H4 & H5 & H6).
    rewrite H4, H5, H6. auto.
Qed.

(** ** What the metaclass collects *)

Lemma set_name_absorbs f owner n n' :
  BaseField.__set_name__ (BaseField.__set_name__ f owner n) owner n'
  = BaseField.__set_name__ f owner n.
Proof.
  unfold BaseField.__set_name__. cbn. now destruct (BaseField._key f).
Qed.

Lemma named_by_oid owner ns f :
  BaseField.oid (named_by owner ns f) = BaseField.oid f.
Proof.
  unfold named_by. now destruct (first_binding ns (BaseField.oid f)).
Qed.

(** The loop of [__set_name__] calls in closed form: every binding of the
    class body shows its object as the first call for that object left
    it. *)
Lemma set_names_named owner todo :
  ∀ ns,
    FormMeta.set_names owner todo ns
    = (fun '(name, prop) =>
         match prop with
         | FormMeta.Field f => (name, FormMeta.Field (named_by owner todo f))
         | FormMeta.Other v => (name, FormMeta.Other v)
         end) <$> ns.
Proof.
  induction todo as [|[n [f|v]] todo IH]; intros ns.
  - cbn [FormMeta.set_names]. symmetry. etransitivity; [|apply list_fmap_id].
    apply list_fmap_ext. intros i [name [g|v]] _; reflexivity.
  - cbn [FormMeta.set_names]. rewrite IH. unfold FormMeta.assign_ns.
    rewrite <- list_fmap_compose. apply list_fmap_ext.
    intros i [name [g|v]] _; cbn; [|reflexivity].
    f_equal. f_equal.
    unfold named_by, BaseField.same_object. cbn [first_binding].
    destruct (decide (BaseField.oid g = BaseField.oid f)) as [Heq|Hne].
    + rewrite bool_decide_eq_true_2 by assumption.
      rewrite bool_decide_eq_true_2 by (now symmetry).
      cbn [BaseField.oid BaseField.__set_name__].
      destruct (first_binding todo (BaseField.oid g)); [|reflexivity].
      apply set_name_absorbs.
    + rewrite bool_decide_eq_false_2 by assumption.
      rewrite bool_decide_eq_false_2 by (intros H; now apply Hne).
      reflexivity.
  - cbn [FormMeta.set_names]. rewrite IH. reflexivity.
Qed.

Lemma new_fields name ns :
  FormMeta._get_form_fields name (FormMeta.type_new name ns)
  = (fun p => BaseField.set_form (named_by name ns p.2) name)
      <$> field_attrs ns.
Proof.
  unfold FormMeta.type_new. rewrite set_names_named.
  generalize (named_by name ns). intros h.
  induction ns as [|[n [f|v]] ns IH]; cbn; [reflexivity| |exact IH].
  f_equal. exact IH.
Qed.

Lemma first_binding_bound ns (i : nat) n f :
  field_attrs ns !! i = Some (n, f) ->
  ∃ n0 (j : nat) g,
    first_binding ns (BaseField.oid f) = Some n0
    ∧ j <= i
    ∧ field_attrs ns !! j = Some (n0, g)
    ∧ BaseField.oid g = BaseField.oid f
    ∧ ∀ (k : nat) m h, k < j -> field_attrs ns !! k = Some (m, h) ->
        BaseField.oid h ≠ BaseField.oid f.
Proof.
  revert i. induction ns as [|[m [h|v]] ns IH]; intros i Hi; cbn in Hi.
  - discriminate.
  - cbn [first_binding].
    destruct (decide (BaseField.oid h = BaseField.oid f)) as [Heq|Hne].
    + rewrite bool_decide_eq_true_2 by assumption.
      exists m, 0, h. split; [reflexivity|]. split; [lia|].
      split; [reflexivity|]. split; [assumption|]. intros k m' h' Hk. lia.
    + rewrite bool_decide_eq_false_2 by assumption.
      destruct i as [|i]; cbn in Hi.
      { injection Hi as -> ->. now destruct Hne. }
      destruct (IH i Hi) as (n0 & j & g & H1 & H2 & H3 & H4 & H5).
      exists n0, (S j), g. split; [assumption|]. split; [lia|].
      split; [exact H3|]. split; [assumption|].
      intros [|k] m' h' Hk Hlook; cbn in Hlook.
      * now injection Hlook as -> ->.
      * apply (H5 k m' h'); [lia|assumption].
  - cbn [first_binding]. apply IH. exact Hi.
Qed.

Lemma first_binding_distinct ns (i : nat) n f :
  distinct_bindings ns ->
  field_attrs ns !! i = Some (n, f) ->
  first_binding ns (BaseField.oid f) = Some n.
Proof.
  unfold distinct_bindings.
  revert i. induction ns as [|[m [h|v]] ns IH]; intros i Hnd Hi;
    cbn in Hi, Hnd.
  - discriminate.
  - cbn [first_binding]. destruct i as [|i]; cbn in Hi.
    + injection Hi as -> ->. now rewrite bool_decide_eq_true_2.
    + apply NoDup_cons in Hnd as [Hnotin Hnd].
      rewrite bool_decide_eq_false_2; [now apply (IH i)|].
      intros Heq. apply Hnotin. rewrite Heq.
      apply list_elem_of_fmap. exists f. split; [reflexivity|].
      clear -Hi. revert i Hi.
      induction ns as [|[m' [h'|v']] ns IH]; intros i Hi; cbn in *.
      * discriminate.
      * destruct i as [|i]; cbn in Hi.
        -- injection Hi as _ ->. constructor.
        -- constructor. now apply (IH i).
      * now apply (IH i).
  - cbn [first_binding]. now apply (IH i).
Qed.

(** When no field object is bound twice, each field is named after its own
    binding. *)
Lemma new_fields_distinct name ns :
  distinct_bindings ns ->
  FormMeta._get_form_fields name (FormMeta.type_new name ns)
  = bound_field name <$> field_attrs ns.
Proof.
  intros Hnd. rewrite new_fields. apply list_fmap_ext.
  intros i [n f] Hi. unfold bound_field, named_by. cbn [fst snd].
  now rewrite (first_binding_distinct ns i n f Hnd Hi).
Qed.

(** X17: the metaclass never fails.  The fields of the class are the field
    bindings of its body, in the order of the body and with the other
    attributes left out, a field object bound to several names occurring
    once per name.  Each field keeps its identity, state, label,
    validators, keyboard and error message and belongs to the class.  A
    field that had a key keeps it; a field without a key takes as key the
    name of the first binding of its object in the body: this is its own
    name when no object is bound twice, and the name of the earlier
    binding for a second binding of one object.  Its data key is
    [<class name>:<key>] and its state label [waiting_<key>]. *)
Theorem metaclass_collects_fields
    (name : string) (ns : list (string * FormMeta.attr)) :
  ∃ form,
    FormMeta.__new__ name ns = Ok form
    ∧ Form.name form = name
    ∧ Form.body form = ns.*1
    ∧ length (Form._fields form) = length (field_attrs ns)
    ∧ ∀ (i : nat) n f, field_attrs ns !! i = Some (n, f) ->
        ∃ n0 (j : nat) g f',
          j <= i
          ∧ field_attrs ns !! j = Some (n0, g)
          ∧ BaseField.oid g = BaseField.oid f
          ∧ (∀ (k : nat) m h, k < j -> field_attrs ns !! k = Some (m, h) ->
               BaseField.oid h ≠ BaseField.oid f)
          ∧ (distinct_bindings ns -> n0 = n)
          ∧ Form._fields form !! i = Some f'
          ∧ BaseField.oid f' = BaseField.oid f
          ∧ BaseField._key f'
            = Some (match BaseField._key f with Some k => k | None => n0 end)
          ∧ BaseField.data_key f' = Ok (name ++ ":" ++ BaseField.key_str f')
          ∧ BaseField.state_label f' = "waiting_" ++ BaseField.key_str f'
          ∧ BaseField._state f' = BaseField._state f
          ∧ BaseField._label f' = BaseField._label f
          ∧ BaseField._validators f' = BaseField._validators f
          ∧ BaseField._reply_keyboard f' = BaseField._reply_keyboard f
          ∧ BaseField.validation_error f' = BaseField.validation_error f.
Proof.
  eexists. split; [reflexivity|]. cbn [Form.name Form._fields Form.body].
  rewrite new_fields. split; [reflexivity|]. split; [reflexivity|].
  split; [apply length_fmap|].
  intros i n f Hi.
  destruct (first_binding_bound ns i n f Hi)
    as (n0 & j & g & Hfirst & Hj & Hg & Hoid & Hbefore).
  exists n0, j, g, (BaseField.set_form (named_by name ns f) name).
  split; [assumption|]. split; [assumption|]. split; [assumption|].
  split; [assumption|].
  split.
  { intros Hnd. rewrite (first_binding_distinct ns i n f Hnd Hi) in Hfirst.
    now injection Hfirst. }
  split; [now rewrite list_lookup_fmap, Hi|].
  unfold named_by. rewrite Hfirst.
  unfold BaseField.key_str, BaseField.data_key,
    BaseField.state_label, BaseField.key_str. cbn.
  destruct (BaseField._key f); repeat split.
Qed.

(** ** A conversation from start to finish *)

Lemma stored_key_str name fs fs' vs d :
  BaseField.key_str <$> fs = BaseField.key_str <$> fs' ->
  stored name fs vs d = stored name fs' vs d.
Proof.
  revert fs' vs d. induction fs as [|f fs IH]; intros [|f' fs'] vs d H;
    cbn in *; try discriminate; try reflexivity.
  destruct vs as [|v vs]; [reflexivity|].
  injection H as Hk Hrest. rewrite Hk. now apply IH.
Qed.

Lemma stored_notin name fs vs d k :
  k ∉ (fun f => name ++ ":" ++ BaseField.key_str f) <$> fs ->
  stored name fs vs d !! k = d !! k.
Proof.
  revert vs d. induction fs as [|f fs IH]; intros vs d Hk; cbn;
    [reflexivity|].
  destruct vs as [|v vs]; [reflexivity|].
  cbn in Hk. apply not_elem_of_cons in Hk as [Hne Hk].
  rewrite IH by assumption. now apply lookup_insert_ne.
Qed.

Lemma stored_lookup name fs vs d (i : nat) f v :
  NoDup ((fun f => name ++ ":" ++ BaseField.key_str f) <$> fs) ->
  fs !! i = Some f -> vs !! i = Some v ->
  stored name fs vs d !! (name ++ ":" ++ BaseField.key_str f) = Some v.
Proof.
  revert vs d i. induction fs as [|f0 fs IH]; intros vs d i Hnd Hf Hv;
    [discriminate|].
  destruct vs as [|v0 vs]; [discriminate|].
  cbn in Hnd. inversion Hnd as [|? ? Hnotin Hnd']; subst.
  destruct i as [|i]; cbn in Hf, Hv.
  - injection Hf as <-. injection Hv as <-. cbn.
    rewrite stored_notin by assumption. apply lookup_insert_eq.
  - cbn. now apply (IH vs _ i).
Qed.

Lemma count_completion callback callback_args :
  count is_callback (completion callback callback_args)
  = length (completion callback callback_args)
  ∧ count is_send (completion callback callback_args) = 0
  ∧ count is_register (completion callback callback_args) = 0.
Proof.
  unfold completion. destruct callback; [|repeat split].
  destruct (call_args callback_args); repeat split.
Qed.

Lemma count_after_store p st f k text :
  (∀ vid v, p (EvValidate vid v) = false) ->
  p EvGetState = false ->
  p (EvUpdateData k text) = false ->
  count p (log (after_store st f k text)) = count p (log st).
Proof.
  intros Hv Hg Hu. unfold after_store. cbn [log].
  change (EvGetState :: ?l)%list with ([EvGetState] ++ l)%list.
  rewrite !count_app, (count_validate_events p _ _ Hv).
  unfold count. cbn [List.filter]. rewrite Hg, Hu. cbn. lia.
Qed.

Lemma count_after_promotion p st g s :
  count p (log (after_promotion st g s))
  = count p (log st) + count p [EvSetState s; prompt st g].
Proof. unfold after_promotion. cbn [log]. apply count_app. Qed.

Lemma run_answers c rest :
  ∀ pre values st,
    Form._fields (cls st) = (pre ++ rest)%list ->
    "finish" ∉ Form.body (cls st) ->
    attached (cls st) ->
    ready (cls st) ->
    (∃ f, head rest = Some f
          ∧ BaseField._state f = FSMContext.state (fsm st)) ->
    all_accepted rest values ->
    let st' := run c (Input <$> values) st in
    cls st' = cls st
    ∧ FSMContext.state (fsm st') = None
    ∧ FSMContext.data (fsm st')
      = stored (Form.name (cls st)) rest values (FSMContext.data (fsm st))
    ∧ count is_callback (log st')
      = count is_callback (log st)
        + length (completion (Form._callback (cls st))
                             (Form._callback_args (cls st)))
    ∧ count is_send (log st') = count is_send (log st) + (length rest - 1)
    ∧ count is_register (log st') = count is_register (log st).
Proof.
  induction rest as [|f rest IH]; intros pre values st Hfields Hbody Hatt
    Hready (f' & Hhead & Hstate) Hacc; [discriminate|].
  cbn in Hhead. injection Hhead as <-.
  inversion Hacc as [|? v ? vs Hfv Hrest]; subst.
  assert (Form._fields (cls st) !! length pre = Some f) as Hf
    by (rewrite Hfields; now apply list_lookup_middle).
  destruct Hready as [Hsome Hnd].
  pose proof (awaiting_of_distinct st (length pre) f Hsome Hnd Hf Hstate)
    as Haw.
  assert (f ∈ Form._fields (cls st)) as Hin
    by (apply list_elem_of_lookup; eauto).
  pose proof (attached_data_key (cls st) f Hatt Hin) as Hk.
  cbv zeta. cbn [fmap list_fmap run foldl].
  fold (run c (Input <$> vs) (exec c (Input v) st)). cbn [exec].
  destruct rest as [|g rest].
  - inversion Hrest; subst. cbn [fmap list_fmap run foldl].
    rewrite (handle_input_last_intact st (length pre) f v _ Hbody Haw Hfv Hk)
      by (rewrite Hfields, length_app; cbn; lia).
    rewrite finish_state. unfold after_finish.
    cbn [cls fsm log FSMContext.state FSMContext.data].
    change (EvResetState false :: ?l)%list
      with ([EvResetState false] ++ l)%list.
    rewrite !count_app.
    rewrite !count_after_store by reflexivity.
    change (cls (after_store st f
                   (Form.name (cls st) ++ ":" ++ BaseField.key_str f) v))
      with (cls st).
    destruct (count_completion (Form._callback (cls st))
                (Form._callback_args (cls st))) as (-> & -> & ->).
    unfold after_store. cbn. repeat split; lia.
  - assert (Form._fields (cls st) !! S (length pre) = Some g) as Hg.
    { rewrite Hfields, (cons_middle f pre (g :: rest)), app_assoc.
      apply list_lookup_middle. rewrite length_app. cbn. lia. }
    assert (g ∈ Form._fields (cls st)) as Hgin
      by (apply list_elem_of_lookup; eauto).
    rewrite Forall_forall in Hsome.
    destruct (Hsome g Hgin) as [s Hs].
    rewrite (handle_input_next st (length pre) f g v _ Haw Hfv Hk Hg).
    rewrite (promotion_run g s _ Hs). cbn [snd].
    destruct (IH (pre ++ [f])%list vs
                (after_promotion
                   (after_store st f
                      (Form.name (cls st) ++ ":" ++ BaseField.key_str f) v)
                   g s))
      as (H1 & H2 & H3 & H4 & H5 & H6).
    + cbn [after_promotion after_store cls]. rewrite Hfields.
      now rewrite (cons_middle f pre (g :: rest)), app_assoc.
    + exact Hbody.
    + exact Hatt.
    + split; [rewrite Forall_forall; exact Hsome|exact Hnd].
    + exists g. split; [reflexivity|]. cbn. now rewrite Hs.
    + exact Hrest.
    + rewrite H1, H2, H3, H4, H5, H6.
      rewrite !count_after_promotion, !count_after_store by reflexivity.
      unfold after_promotion, after_store, prompt, count. cbn.
      repeat split; lia.
Qed.

Lemma assign_states_fmap (h : BaseField.t -> string) fields :
  NoDup (BaseField.oid <$> fields) ->
  FormMeta.assign_states fields (h <$> fields)
  = (fun f => BaseField.set_state f (h f)) <$> fields.
Proof.
  intros Hnd. rewrite assign_states_distinct by assumption. clear Hnd.
  induction fields as [|f fields IH]; cbn; [reflexivity|]. now rewrite IH.
Qed.

Lemma state_names_distinct c cls :
  NoDup (BaseField.state_label <$> Form._fields cls) ->
  NoDup (state_name c cls <$> Form._fields cls).
Proof.
  intros Hnd. unfold state_name.
  assert (∀ l : list BaseField.t,
            (fun f => (Form.name cls ++ const.STATES_GROUP_SUFFIX c) ++ ":"
                        ++ BaseField.state_label f) <$> l
            = (fun x => (Form.name cls ++ const.STATES_GROUP_SUFFIX c) ++ ":"
                          ++ x) <$> (BaseField.state_label <$> l)) as ->
    by (intros l; rewrite <- list_fmap_compose; reflexivity).
  apply NoDup_fmap_2; [|assumption].
  intros x y Hxy. apply String.app_inj in Hxy.
  now apply (String.app_inj ":") in Hxy.
Qed.

Lemma data_keys_distinct cls :
  NoDup (BaseField.state_label <$> Form._fields cls) ->
  NoDup (data_keys cls).
Proof.
  intros Hnd. unfold data_keys.
  assert (∀ l : list BaseField.t,
            (fun f => Form.name cls ++ ":" ++ BaseField.key_str f) <$> l
            = (fun k => Form.name cls ++ ":" ++ k)
                <$> (BaseField.key_str <$> l)) as ->
    by (intros l; rewrite <- list_fmap_compose; reflexivity).
  assert (BaseField.state_label <$> Form._fields cls
          = (fun k => "waiting_" ++ k)
              <$> (BaseField.key_str <$> Form._fields cls)) as Hl
    by (rewrite <- list_fmap_compose; reflexivity).
  rewrite Hl in Hnd. apply NoDup_fmap_1 in Hnd.
  apply NoDup_fmap_2; [|assumption].
  intros x y Hxy. apply String.app_inj in Hxy.
  now apply (String.app_inj ":") in Hxy.
Qed.

Lemma install_i18n_state apps cls :
  Form._state (BaseForm.install_i18n apps cls) = Form._state cls.
Proof.
  revert cls. induction apps as [|m apps IH]; intros cls; simpl.
  - reflexivity.
  - destruct (str_in "i18n" (Middleware.str m)); now rewrite IH.
Qed.

Lemma install_i18n_body apps cls :
  Form.body (BaseForm.install_i18n apps cls) = Form.body cls.
Proof.
  revert cls. induction apps as [|m apps IH]; intros cls; simpl.
  - reflexivity.
  - destruct (str_in "i18n" (Middleware.str m)); now rewrite IH.
Qed.

Lemma compiled_body c cls : Form.body (compiled c cls) = Form.body cls.
Proof. unfold compiled. now destruct (Form._state cls). Qed.

Lemma start_setup_body c callback callback_args st :
  Form.body (cls (after_start_setup c callback callback_args st))
  = Form.body (cls st).
Proof.
  unfold after_start_setup, after_register. cbn [with_cls cls].
  assert (Form.body (store_callback callback callback_args (cls st))
          = Form.body (cls st)) as Hcb by (destruct callback; reflexivity).
  destruct (Form._registered (store_callback callback callback_args (cls st)));
    [exact Hcb|].
  cbn [cls Form.set_registered Form.body].
  now rewrite install_i18n_body, compiled_body.
Qed.

(** No call on the form changes what the class body bound. *)
Lemma exec_body c op st :
  Form.body (cls (exec c op st)) = Form.body (cls st).
Proof.
  destruct op as [cb args|text| | |]; cbn [exec].
  - pose proof (start_setup c cb args st) as H.
    unfold class_view in H. apply pair_equal_spec in H as [-> _].
    apply start_setup_body.
  - pose proof (class_view_handle_input text st) as H.
    unfold class_view in H. now apply pair_equal_spec in H as [-> _].
  - pose proof (class_view_finish st) as H.
    unfold class_view in H. now apply pair_equal_spec in H as [-> _].
  - pose proof (class_view_get_data st) as H.
    unfold class_view in H. now apply pair_equal_spec in H as [-> _].
  - rewrite state_run. cbn [snd with_cls cls]. apply compiled_body.
Qed.

(** The class and the log once [start] has registered a fresh class. *)
Lemma fresh_start_setup c callback callback_args st :
  distinct_objects (cls st) ->
  Form._registered (cls st) = false ->
  Form._state (cls st) = None ->
  NoDup (BaseField.state_label <$> Form._fields (cls st)) ->
  let st1 := after_start_setup c callback callback_args st in
  Form._fields (cls st1)
  = (fun f => BaseField.set_state f (state_name c (cls st) f))
      <$> Form._fields (cls st)
  ∧ Form.name (cls st1) = Form.name (cls st)
  ∧ Form._callback (cls st1)
    = Form._callback (store_callback callback callback_args (cls st))
  ∧ Form._callback_args (cls st1)
    = Form._callback_args (store_callback callback callback_args (cls st))
  ∧ fsm st1 = fsm st
  ∧ log st1
    = (log st
         ++ [EvRegister (state_name c (cls st) <$> Form._fields (cls st))])%list.
Proof.
  intros Hobj Hreg Hstate Hnd. cbv zeta.
  unfold after_start_setup, after_register. cbn [with_cls cls].
  assert (Form._registered (store_callback callback callback_args (cls st))
          = false) as -> by (destruct callback; assumption).
  cbn [cls fsm log].
  assert (compiled c (store_callback callback callback_args (cls st))
          = Form.set_fields
              (Form.set_state (store_callback callback callback_args (cls st))
                 (compile_group c (cls st)))
              ((fun f => BaseField.set_state f (state_name c (cls st) f))
                 <$> Form._fields (cls st))) as ->.
  { unfold compiled.
    assert (Form._state (store_callback callback callback_args (cls st))
            = None) as -> by (destruct callback; assumption).
    assert (compile_group c (store_callback callback callback_args (cls st))
            = compile_group c (cls st)) as -> by (destruct callback; reflexivity).
    assert (Form._fields (store_callback callback callback_args (cls st))
            = Form._fields (cls st)) as -> by (destruct callback; reflexivity).
    now rewrite (compile_group_names c (cls st) Hnd),
      (assign_states_fmap _ _ Hobj). }
  assert (state_group c (store_callback callback callback_args (cls st))
          = compile_group c (cls st)) as ->.
  { unfold state_group.
    assert (Form._state (store_callback callback callback_args (cls st))
            = None) as -> by (destruct callback; assumption).
    destruct callback; reflexivity. }
  rewrite (compile_group_names c (cls st) Hnd).
  cbn [Form.set_registered Form._fields Form.name Form._callback
         Form._callback_args].
  rewrite install_i18n_fields, install_i18n_name.
  match goal with
  | |- context [BaseForm.install_i18n ?apps ?cl] =>
      destruct (install_i18n_callback apps cl) as [-> ->]
  end.
  cbn. destruct callback; repeat split.
Qed.

(** X7: a whole conversation on a newly defined form.  For a class that
    is neither compiled nor registered, whose body binds none of the
    method names of [BaseForm], whose fields are pairwise distinct
    objects, belong to it and have pairwise distinct state labels,
    [start] followed by one accepted value
    per field, in field order, ends with the state reset to none and the
    data holding each value under the data key of its field; the handler
    has been registered once, one prompt per field has been sent and
    nothing else, and the callback stored by [start] has been called once
    if there is one and its arguments can be unpacked, and not at all
    otherwise. *)
Theorem complete_conversation
    (c : const.t) (callback : option Callback) (callback_args : pyval)
    (st : St) (values : list string) :
  methods_intact (cls st) ->
  distinct_objects (cls st) ->
  Form._registered (cls st) = false ->
  Form._state (cls st) = None ->
  attached (cls st) ->
  NoDup (BaseField.state_label <$> Form._fields (cls st)) ->
  Form._fields (cls st) ≠ [] ->
  all_accepted (Form._fields (cls st)) values ->
  let st' := run c (Start callback callback_args :: (Input <$> values)) st in
  FSMContext.state (fsm st') = None
  ∧ FSMContext.data (fsm st')
    = stored (Form.name (cls st)) (Form._fields (cls st)) values
        (FSMContext.data (fsm st))
  ∧ (∀ (i : nat) f v,
       Form._fields (cls st) !! i = Some f -> values !! i = Some v ->
       FSMContext.data (fsm st')
         !! (Form.name (cls st) ++ ":" ++ BaseField.key_str f) = Some v)
  ∧ count is_register (log st') = count is_register (log st) + 1
  ∧ count is_send (log st')
    = count is_send (log st) + length (Form._fields (cls st))
  ∧ count is_callback (log st')
    = count is_callback (log st)
      + length (completion
                  (Form._callback
                     (store_callback callback callback_args (cls st)))
                  (Form._callback_args
                     (store_callback callback callback_args (cls st)))).
Proof.
  intros Hint Hobj Hreg Hstate Hatt Hnd Hne Hacc. cbv zeta.
  cbn [run foldl].
  fold (run c (Input <$> values) (exec c (Start callback callback_args) st)).
  cbn [exec]. rewrite start_run.
  destruct (fresh_start_setup c callback callback_args st Hobj Hreg Hstate Hnd)
    as (Hfields & Hname & Hcb & Hargs & Hfsm & Hlog).
  set (st1 := after_start_setup c callback callback_args st) in *.
  destruct (Form._fields (cls st)) as [|f0 rest] eqn:Hfs; [contradiction|].
  cbn [fmap list_fmap] in Hfields.
  rewrite (bind_ok _ _ st1
             (BaseField.set_state f0 (state_name c (cls st) f0)) st1)
    by (apply tuple_get_run; now rewrite Hfields).
  rewrite (promotion_run (BaseField.set_state f0 (state_name c (cls st) f0))
             (state_name c (cls st) f0) st1 eq_refl).
  cbn [snd].
  set (st2 := after_promotion st1
                (BaseField.set_state f0 (state_name c (cls st) f0))
                (state_name c (cls st) f0)).
  assert (cls st2 = cls st1) as Hcls2 by reflexivity.
  destruct (run_answers c (Form._fields (cls st2)) [] values st2)
    as (H1 & H2 & H3 & H4 & H5 & H6).
  - reflexivity.
  - rewrite Hcls2. unfold st1. rewrite start_setup_body.
    now apply methods_intact_finish.
  - rewrite Hcls2. unfold attached. rewrite Hname, Hfields.
    unfold attached in Hatt. rewrite Hfs in Hatt.
    inversion Hatt as [|? ? Hf0 Hrest]; subst.
    constructor; [exact Hf0|]. apply Forall_fmap.
    eapply Forall_impl; [exact Hrest|]. intros f Hf. exact Hf.
  - unfold ready. rewrite Hcls2, Hfields. split.
    + constructor; [cbn; eauto|]. apply Forall_fmap, Forall_forall.
      intros f _. cbn. eauto.
    + pose proof (state_names_distinct c (cls st)) as Hsn.
      rewrite Hfs in Hsn. specialize (Hsn Hnd).
      change (BaseField.set_state f0 (state_name c (cls st) f0)
                :: ((fun f => BaseField.set_state f (state_name c (cls st) f))
                      <$> rest))
        with ((fun f => BaseField.set_state f (state_name c (cls st) f))
                <$> (f0 :: rest)).
      rewrite <- list_fmap_compose.
      assert (BaseField._state
                ∘ (fun f => BaseField.set_state f (state_name c (cls st) f))
                <$> f0 :: rest
              = Some <$> (state_name c (cls st) <$> (f0 :: rest))) as ->
        by (rewrite <- list_fmap_compose; reflexivity).
      apply NoDup_fmap_2; [|exact Hsn]. intros x y [= ->]. reflexivity.
  - rewrite Hcls2, Hfields. eexists. split; [reflexivity|]. reflexivity.
  - rewrite Hcls2, Hfields. unfold all_accepted in *.
    change (BaseField.set_state f0 (state_name c (cls st) f0)
              :: ((fun f => BaseField.set_state f (state_name c (cls st) f))
                    <$> rest))
      with ((fun f => BaseField.set_state f (state_name c (cls st) f))
              <$> (f0 :: rest)).
    apply Forall2_fmap_l. exact Hacc.
  - rewrite H2, H3, H4, H5, H6. rewrite Hcls2, Hname, Hcb, Hargs.
    assert (stored (Form.name (cls st)) (Form._fields (cls st1)) values
              (FSMContext.data (fsm st2))
            = stored (Form.name (cls st)) (f0 :: rest) values
                (FSMContext.data (fsm st))) as Hstored.
    { change (FSMContext.data (fsm st2)) with (FSMContext.data (fsm st1)).
      rewrite Hfsm. apply stored_key_str. rewrite Hfields.
      change (BaseField.set_state f0 (state_name c (cls st) f0)
                :: ((fun f => BaseField.set_state f (state_name c (cls st) f))
                      <$> rest))
        with ((fun f => BaseField.set_state f (state_name c (cls st) f))
                <$> (f0 :: rest)).
      rewrite <- list_fmap_compose. reflexivity. }
    rewrite Hstored.
    split; [reflexivity|]. split; [reflexivity|].
    split.
    { intros i f v Hf Hv. apply (stored_lookup _ _ _ _ i); try assumption.
      pose proof (data_keys_distinct (cls st)) as Hdk.
      unfold data_keys in Hdk. rewrite Hfs in Hdk. apply Hdk. exact Hnd. }
    unfold st2. rewrite !count_after_promotion. rewrite Hlog, !count_app.
    rewrite Hfields. unfold count, prompt. cbn. rewrite length_fmap.
    repeat split; lia.
Qed.


(** ** Where a call leaves the state pointer *)

Lemma handle_input_state text st :
  let st' := (BaseForm._handle_input text st).2 in
  FSMContext.state (fsm st') = FSMContext.state (fsm st)
  ∨ FSMContext.state (fsm st') = None
  ∨ ∃ g s, g ∈ Form._fields (cls st)
           ∧ BaseField._state g = Some s
           ∧ FSMContext.state (fsm st') = Some s.
Proof.
  cbv zeta. unfold BaseForm._handle_input.
  pose proof (get_current_field_run st) as Hg.
  destruct (BaseForm.scan (Form._fields (cls st)) 0
              (FSMContext.state (fsm st))) as [[i|]|e].
  - rewrite (bind_ok _ _ _ _ _ Hg).
    destruct (Form._fields (cls st) !! i) as [f|] eqn:Hf.
    + rewrite (bind_ok _ _ _ _ _
                 (the_field_some (logged st [EvGetState]) i f Hf)).
      unfold BaseField_validate.
      rewrite (bind_ok _ _ _ _ _ (validate_loop_run _ text _)).
      fold (accepts f text). destruct (accepts f text) eqn:Hacc.
      * destruct (BaseField.data_key f) as [k|e] eqn:Hk.
        -- rewrite (bind_ok (lift (Ok k)) _ _ k _ eq_refl).
           rewrite (bind_ok _ _ _ _ _ (update_data_run k text _)).
           pose proof (lookup_lt_Some _ _ _ Hf) as Hlt.
           match goal with
           | |- context [(BaseForm.tuple_index (Some i) ≫= ?kk) ?s] =>
               rewrite (bind_ok _ kk s i s
                          (tuple_index_run s i
                             ltac:(unfold logged; cbn; lia)))
           end.
           cbv zeta. rewrite (bind_ok get_cls _ _ _ _ eq_refl).
           cbn [cls logged].
           destruct (bool_decide (i + 1 < length (Form._fields (cls st))))
             eqn:Hnext.
           ++ apply bool_decide_eq_true_1 in Hnext.
              destruct (lookup_lt_is_Some_2 _ _ Hnext) as [g Hgl].
              match goal with
              | |- context [(BaseForm.tuple_get (i + 1) ≫= ?kk) ?s] =>
                  rewrite (bind_ok _ kk s g s (tuple_get_run s (i + 1) g Hgl))
              end.
              destruct (BaseField._state g) as [s|] eqn:Hs.
              ** rewrite (promotion_run g s _ Hs). right. right.
                 exists g, s. split; [|split; [assumption|reflexivity]].
                 apply list_elem_of_lookup. eauto.
              ** rewrite (promotion_unassigned g _ Hs). now left.
           ++ match goal with
              | |- context [BaseForm.cls_finish ?s] =>
                  destruct (decide ("finish" ∈ Form.body (cls s))) as [Hb|Hb];
                  [rewrite (cls_finish_shadowed s Hb); now left
                  |rewrite (cls_finish_intact s Hb), finish_state;
                   right; now left]
              end.
        -- left. now rewrite (bind_raise (lift (Raise e)) _ _ e _ eq_refl).
      * left. run_m. reflexivity.
    + left. unfold BaseForm.the_field.
      rewrite (bind_raise _ _ (logged st [EvGetState]) AttributeError
                 (logged st [EvGetState])); [reflexivity|].
      unfold mbind, M_bind, get_cls. cbn [cls logged]. now rewrite Hf.
  - left. now rewrite (bind_ok _ _ _ _ _ Hg).
  - left. now rewrite (bind_raise _ _ _ _ _ Hg).
Qed.

(** X11: a call on the form leaves the conversation's state as it was,
    resets it to none, or sets it to the state assigned to one of the
    form's fields: the form never moves a conversation to a state that is
    not its own. *)
Theorem call_moves_state_within_form (c : const.t) (op : call) (st : St) :
  let st' := exec c op st in
  FSMContext.state (fsm st') = FSMContext.state (fsm st)
  ∨ FSMContext.state (fsm st') = None
  ∨ ∃ g s, g ∈ Form._fields (cls st')
           ∧ BaseField._state g = Some s
           ∧ FSMContext.state (fsm st') = Some s.
Proof.
  cbv zeta. destruct op as [cb args|text| | |]; cbn [exec].
  - rewrite start_run.
    set (st1 := after_start_setup c cb args st).
    assert (fsm st1 = fsm st) as Hfsm.
    { unfold st1, after_start_setup, after_register. cbn [with_cls cls].
      now destruct (Form._registered (store_callback cb args (cls st))). }
    destruct (Form._fields (cls st1) !! 0) as [g|] eqn:Hg.
    + rewrite (bind_ok _ _ st1 g st1 (tuple_get_run st1 0 g Hg)).
      destruct (BaseField._state g) as [s|] eqn:Hs.
      * rewrite (promotion_run g s _ Hs). right. right. exists g, s.
        split; [|split; [assumption|reflexivity]].
        cbn. apply list_elem_of_lookup. eauto.
      * rewrite (promotion_unassigned g _ Hs). left. cbn. now rewrite Hfsm.
    + left. rewrite (bind_raise _ _ st1 IndexError st1).
      * cbn. now rewrite Hfsm.
      * unfold BaseForm.tuple_get, mbind, M_bind, get_cls. now rewrite Hg.
  - pose proof (class_view_handle_input text st) as H.
    unfold class_view in H. apply pair_equal_spec in H as [-> _].
    apply handle_input_state.
  - right. left. now rewrite finish_state.
  - left. reflexivity.
  - left. now rewrite state_run.
Qed.

(** ** Clashing state labels *)

Lemma zip_states_beyond fields names (i : nat) :
  length names <= i ->
  zip_states fields names !! i = fields !! i.
Proof.
  revert names i. induction fields as [|f fields IH]; intros [|n names] i Hi;
    cbn in *; try reflexivity.
  destruct i as [|i]; [lia|]. cbn. apply IH. lia.
Qed.

(** The loop assigns only to the objects it is handed together with a
    state name. *)
Lemma assign_loop_untouched todo names fields (i : nat) f :
  fields !! i = Some f ->
  BaseField.oid f ∉ BaseField.oid <$> take (length names) todo ->
  FormMeta.assign_loop todo names fields !! i = Some f.
Proof.
  revert names fields. induction todo as [|g todo IH];
    intros [|n names] fields Hf Hout; cbn [FormMeta.assign_loop];
    try assumption.
  cbn in Hout. apply not_elem_of_cons in Hout as [Hne Hout].
  apply IH; [|exact Hout].
  unfold BaseField.assign. rewrite list_lookup_fmap, Hf. cbn.
  unfold BaseField.same_object. now rewrite bool_decide_eq_false_2.
Qed.

(** X18: when two fields of a class have the same state label, the first
    access to [state] builds fewer states than there are fields.  With
    [k] states built, only the objects of the first [k] fields are
    assigned a state: every field that is none of these objects is left
    as it was, and when the fields are pairwise distinct objects these are
    the fields at the positions from [k] on. *)
Theorem clashing_labels_leave_fields_out (c : const.t) (st : St) :
  Form._state (cls st) = None ->
  ¬ NoDup (BaseField.state_label <$> Form._fields (cls st)) ->
  let g := compile_group c (cls st) in
  let st1 := (FormMeta.state c st).2 in
  let k := length (StatesGroup.states_names g) in
  (FormMeta.state c st).1 = Ok g
  ∧ k < length (Form._fields (cls st))
  ∧ NoDup (StatesGroup.states_names g)
  ∧ (∀ (i : nat) f,
       Form._fields (cls st) !! i = Some f ->
       BaseField.oid f ∉ BaseField.oid <$> take k (Form._fields (cls st)) ->
       Form._fields (cls st1) !! i = Some f)
  ∧ (distinct_objects (cls st) ->
     ∀ i : nat, k <= i ->
       Form._fields (cls st1) !! i = Form._fields (cls st) !! i).
Proof.
  intros Hnone Hdup. cbv zeta. rewrite (state_first c st Hnone). cbn [fst snd].
  split; [reflexivity|].
  split; [now apply compile_group_short|].
  split; [apply compile_group_distinct|].
  cbn [cls Form.set_fields Form._fields]. split.
  - intros i f Hf Hout. now apply assign_loop_untouched.
  - intros Hobj i Hi. rewrite assign_states_distinct by exact Hobj.
    now apply zip_states_beyond.
Qed.

(** ** The further properties on the examples *)

Lemma signup_fresh_attached : attached (cls Signup.fresh).
Proof. unfold attached. vm_compute. repeat constructor. Qed.

Lemma signup_fresh_labels :
  NoDup (BaseField.state_label <$> Form._fields (cls Signup.fresh)).
Proof. apply (bool_decide_unpack _). vm_compute. exact I. Qed.




Lemma start_fresh_witness :
  let r := BaseForm.start Signup.c (Some Signup.on_done) PyNone Signup.fresh in
  r.1 = Ok tt
  ∧ fsm r.2 = {| FSMContext.state := Some "SignupStatesGroup:waiting_name";
                 FSMContext.data := ∅ |}.
Proof.
  destruct (start_fresh_prompts_first_field Signup.c (Some Signup.on_done)
              PyNone Signup.fresh
              (bound_field "Signup" ("name", Signup.name_field))
              [bound_field "Signup" ("age", Signup.age_field)]
              signup_fresh_intact signup_fresh_distinct
              eq_refl eq_refl eq_refl) as (Hr & Hfsm & _).
  cbv zeta. split; [exact Hr|exact Hfsm].
Defined.





Lemma current_field_witness :
  (BaseForm.get_current_field Signup.named).1 = Ok (Some 1).
Proof.
  destruct (current_field_resolution Signup.named) as (_ & Hsome & _).
  apply Hsome. exists SignupRun.age_awaited. exact signup_named_awaiting.
Defined.

Lemma complete_conversation_witness :
  let st' := run Signup.c
               (Start (Some Signup.on_done) PyNone :: (Input <$> ["Alice"; "30"]))
               Signup.fresh in
  FSMContext.state (fsm st') = None
  ∧ FSMContext.data (fsm st') !! "Signup:name" = Some "Alice"
  ∧ FSMContext.data (fsm st') !! "Signup:age" = Some "30"
  ∧ count is_callback (log st') = 1.
Proof.
  assert (all_accepted (Form._fields (cls Signup.fresh)) ["Alice"; "30"])
    as Hacc by (repeat constructor).
  destruct (complete_conversation Signup.c (Some Signup.on_done) PyNone
              Signup.fresh ["Alice"; "30"]
              signup_fresh_intact signup_fresh_distinct eq_refl eq_refl
              signup_fresh_attached signup_fresh_labels
              ltac:(discriminate) Hacc) as (Hstate & _ & Hlook & _ & _ & Hcb).
  cbv zeta. split; [exact Hstate|].
  split; [exact (Hlook 0 _ "Alice" eq_refl eq_refl)|].
  split; [exact (Hlook 1 _ "30" eq_refl eq_refl)|exact Hcb].
Defined.


Lemma foreign_key_witness :
  FSMContext.data (fsm (run Signup.c SignupRun.restarts Signup.fresh))
    !! "Order:item" = None.
Proof.
  assert ("Order:item" ∉ data_keys (cls Signup.fresh)) as Hk.
  { vm_compute data_keys. intros H.
    repeat (apply elem_of_cons in H as [H|H]; [discriminate|]).
    inversion H. }
  exact (form_writes_only_its_keys Signup.c SignupRun.restarts Signup.fresh
           "Order:item" signup_fresh_attached Hk).
Defined.

Lemma restart_keeps_data_witness :
  FSMContext.data (fsm (exec Signup.c (Start None PyNone) Signup.named))
  = FSMContext.data (fsm Signup.named).
Proof.
  apply calls_other_than_input_keep_data. intros text H. discriminate H.
Defined.

Lemma last_i18n_witness :
  Form._i18n (cls (BaseForm._register_handler Signup.c Locale.fresh).2)
  = Some Locale.french.
Proof.
  destruct (register_installs_last_i18n Signup.c Locale.fresh) as [H _].
  exact (H eq_refl).
Defined.

Lemma finish_unpack_failure_witness :
  let r := BaseForm.finish signup_bad_arguments in
  r.1 = Raise TypeError
  ∧ FSMContext.state (fsm r.2) = None
  ∧ log r.2 = (log signup_bad_arguments ++ [EvResetState false])%list.
Proof.
  destruct (finish_unpack_failure signup_bad_arguments Signup.on_done eq_refl)
    as (Hr & Hstate & _ & Hlog).
  { right. exists 5%Z. split; [discriminate|reflexivity]. }
  cbv zeta. split; [exact Hr|]. split; [exact Hstate|exact Hlog].
Defined.

Lemma finish_callback_arguments_witness :
  let e_acute := String (ascii_of_nat 195) (String (ascii_of_nat 169) "") in
  let st := with_cls Signup.named
              (Form.set_callback (cls Signup.named) Signup.on_done
                 (PyStr (e_acute ++ "!"))) in
  drop (length (log Signup.named)) (log (BaseForm.finish Signup.named).2)
  = [EvResetState false; EvCallback Signup.on_done []]
  ∧ drop (length (log st)) (log (BaseForm.finish st).2)
    = [EvResetState false;
       EvCallback Signup.on_done [PyStr e_acute; PyStr "!"]]
  ∧ String.length (e_acute ++ "!") = 3.
Proof.
  cbv zeta. split; [|split; [|reflexivity]].
  - destruct (finish_callback_arguments Signup.named Signup.on_done
                ltac:(vm_compute; reflexivity)) as [H _].
    apply H. vm_compute. reflexivity.
  - destruct (finish_callback_arguments
                (with_cls Signup.named
                   (Form.set_callback (cls Signup.named) Signup.on_done
                      (PyStr (String (ascii_of_nat 195)
                                (String (ascii_of_nat 169) "") ++ "!"))))
                Signup.on_done eq_refl) as (_ & _ & H).
    destruct (H (String (ascii_of_nat 195) (String (ascii_of_nat 169) "")
                   ++ "!") ltac:(discriminate) eq_refl) as [Hnew _].
    exact Hnew.
Defined.

Lemma compiled_class_witness :
  Form._fields (cls (run Signup.c SignupRun.restarts Signup.named))
  = Form._fields (cls Signup.named).
Proof.
  destruct (Form._state (cls Signup.named)) as [g|] eqn:Hg;
    [|vm_compute in Hg; discriminate].
  exact (proj1 (proj2 (compiled_class_is_stable Signup.c SignupRun.restarts
                         Signup.named g Hg))).
Defined.

Lemma metaclass_witness :
  ∃ form,
    FormMeta.__new__ "Alias" Alias.namespace = Ok form
    ∧ BaseField._key <$> Form._fields form = [Some "a"; Some "a"; Some "b"]
    ∧ BaseField.data_key <$> Form._fields form
      = [Ok "Alias:a"; Ok "Alias:a"; Ok "Alias:b"].
Proof.
  destruct (metaclass_collects_fields "Alias" Alias.namespace)
    as (form & Hnew & _ & _ & Hlen & Hfields).
  exists form. split; [exact Hnew|].
  destruct (Hfields 0 "a" Alias.shared eq_refl)
    as (n1 & j1 & g1 & f1 & Hj1 & Hg1 & _ & _ & _ & H1 & _ & K1 & D1 & _).
  destruct (Hfields 1 "a2" Alias.shared eq_refl)
    as (n2 & j2 & g2 & f2 & Hj2 & Hg2 & _ & Hb2 & _ & H2 & _ & K2 & D2 & _).
  destruct (Hfields 2 "b" Alias.other eq_refl)
    as (n3 & j3 & g3 & f3 & Hj3 & Hg3 & Ho3 & _ & _ & H3 & _ & K3 & D3 & _).
  assert (n1 = "a") as ->.
  { destruct j1 as [|j1]; [|lia]. cbn in Hg1. now injection Hg1 as <- _. }
  assert (n2 = "a") as ->.
  { destruct j2 as [|[|j2]]; [| |lia].
    - cbn in Hg2. now injection Hg2 as <- _.
    - now destruct (Hb2 0 "a" Alias.shared ltac:(lia) eq_refl). }
  assert (n3 = "b") as ->.
  { destruct j3 as [|[|[|j3]]]; [| | |lia]; cbn in Hg3;
      injection Hg3 as <- <-; [discriminate Ho3|discriminate Ho3|reflexivity]. }
  destruct (Form._fields form) as [|x [|y [|z [|w l]]]]; cbn in Hlen;
    try discriminate.
  cbn in H1, H2, H3. injection H1 as ->. injection H2 as ->.
  injection H3 as ->.
  unfold BaseField.key_str in D1, D2, D3. rewrite K1 in D1.
  rewrite K2 in D2. rewrite K3 in D3.
  cbn [fmap list_fmap]. rewrite K1, K2, K3, D1, D2, D3. split; reflexivity.
Defined.

Lemma clashing_labels_witness :
  let st1 := (FormMeta.state Signup.c Clash.fresh).2 in
  let st2 := (FormMeta.state Signup.c Alias.fresh).2 in
  Form._fields (cls st1) !! 1 = Form._fields (cls Clash.fresh) !! 1
  ∧ length (StatesGroup.states_names (compile_group Signup.c (cls Clash.fresh)))
    < 2
  ∧ Form._fields (cls st2) !! 2 = Form._fields (cls Alias.fresh) !! 2
  ∧ BaseField._state <$> Form._fields (cls st2)
    = [Some "AliasStatesGroup:waiting_b"; Some "AliasStatesGroup:waiting_b";
       None].
Proof.
  assert (¬ NoDup (BaseField.state_label <$> Form._fields (cls Clash.fresh)))
    as Hdup.
  { apply (bool_decide_unpack _). vm_compute. exact I. }
  assert (¬ NoDup (BaseField.state_label <$> Form._fields (cls Alias.fresh)))
    as Hdup'.
  { apply (bool_decide_unpack _). vm_compute. exact I. }
  assert (distinct_objects (cls Clash.fresh)) as Hobj.
  { unfold distinct_objects. apply (bool_decide_unpack _). vm_compute.
    exact I. }
  destruct (clashing_labels_leave_fields_out Signup.c Clash.fresh eq_refl Hdup)
    as (_ & Hlen & _ & _ & Hout).
  destruct (clashing_labels_leave_fields_out Signup.c Alias.fresh eq_refl Hdup')
    as (_ & _ & _ & Hkeep & _).
  cbv zeta. split; [apply (Hout Hobj); vm_compute; lia|].
  split; [exact Hlen|]. split; [|vm_compute; reflexivity].
  apply (Hkeep 2 _ eq_refl). apply (bool_decide_unpack _). vm_compute.
  exact I.
Defined.
